(** * MovieProject: the local credential store and the password check

    A shallow embedding of [database/db.py] and [database/user_auth.py].

    Conventions of the embedding.
    - A Python [str] is represented by the byte string of its UTF-8
      encoding, as a [String.string]; [str.encode()] is then the
      passage to [list byte].  The character [':'] is ASCII, so the
      membership test and the split act on the encoding exactly as on
      the text.  Text that CPython cannot encode (lone surrogates) is
      outside the model.
    - [hashlib.sha256] is the function of FIPS 180-4, on 32-bit words
      held in [N] with the wrap-around written out.
    - [os.urandom] reads a stream of bytes held by the world, which
      also counts how many of them were drawn.
    - [sqlite3] is a small model of one database file holding at most
      the table [users], with injected storage faults; a TEXT value
      holds any bytes, and fetching it fails when they are not
      UTF-8. *)

From Stdlib Require Import NArith List Bool Ascii String Lia.
From Stdlib Require Import Strings.Byte.
Import ListNotations.

Local Open Scope string_scope.

(** ** Python text primitives used by the source *)

(** [s.encode()] on the representation. *)
Definition encode (s : string) : list byte := list_byte_of_string s.

(** [c in s] for a one-character [c]. *)
Fixpoint str_contains (c : ascii) (s : string) : bool :=
  match s with
  | EmptyString => false
  | String a s' => if Ascii.eqb a c then true else str_contains c s'
  end.

(** The pair of pieces around the first [c], when there is one. *)
Fixpoint str_partition (c : ascii) (s : string) : option (string * string) :=
  match s with
  | EmptyString => None
  | String a s' =>
      if Ascii.eqb a c then Some (EmptyString, s')
      else match str_partition c s' with
           | Some (l, r) => Some (String a l, r)
           | None => None
           end
  end.

(** [s.split(c, 1)]: at most one split, at the first [c]. *)
Definition str_split1 (c : ascii) (s : string) : list string :=
  match str_partition c s with
  | Some (l, r) => [l; r]
  | None => [s]
  end.

Definition colon : ascii := ":"%char.

(** ** Hexadecimal rendering: [bytes.hex()] and [hexdigest()] *)

Definition hex_digit (n : N) : ascii :=
  match n with
  | 0 => "0" | 1 => "1" | 2 => "2" | 3 => "3"
  | 4 => "4" | 5 => "5" | 6 => "6" | 7 => "7"
  | 8 => "8" | 9 => "9" | 10 => "a" | 11 => "b"
  | 12 => "c" | 13 => "d" | 14 => "e" | _ => "f"
  end%N%char.

Fixpoint hex (bs : list byte) : string :=
  match bs with
  | [] => EmptyString
  | b :: bs' =>
      String (hex_digit (N.shiftr (Byte.to_N b) 4))
        (String (hex_digit (N.land (Byte.to_N b) 15)) (hex bs'))
  end.

(** The spec's words for the rendering: every character is one of the
    sixteen lowercase hexadecimal digits. *)
Definition is_lower_hex_digit (a : ascii) : bool :=
  str_contains a "0123456789abcdef".

Fixpoint all_chars (p : ascii -> bool) (s : string) : bool :=
  match s with
  | EmptyString => true
  | String a s' => p a && all_chars p s'
  end.

(** ** SHA-256 (FIPS 180-4), the function behind [hashlib.sha256] *)

Module SHA256.

Local Open Scope list_scope.
Local Open Scope N_scope.

Definition mask32 : N := 0xFFFFFFFF.
Definition add32 (a b : N) : N := N.land (a + b) mask32.
Definition not32 (a : N) : N := N.lxor a mask32.
Definition rotr (n x : N) : N :=
  N.lor (N.shiftr x n) (N.land (N.shiftl x (32 - n)) mask32).

Definition Ch (x y z : N) : N := N.lxor (N.land x y) (N.land (not32 x) z).
Definition Maj (x y z : N) : N :=
  N.lxor (N.lxor (N.land x y) (N.land x z)) (N.land y z).
Definition Sigma0 (x : N) : N := N.lxor (N.lxor (rotr 2 x) (rotr 13 x)) (rotr 22 x).
Definition Sigma1 (x : N) : N := N.lxor (N.lxor (rotr 6 x) (rotr 11 x)) (rotr 25 x).
Definition sigma0 (x : N) : N := N.lxor (N.lxor (rotr 7 x) (rotr 18 x)) (N.shiftr x 3).
Definition sigma1 (x : N) : N := N.lxor (N.lxor (rotr 17 x) (rotr 19 x)) (N.shiftr x 10).

(** The constants, from their definition in the standard: the first
    32 bits of the fractional parts of the cube roots ([K]) and of the
    square roots ([H0]) of the first primes. *)
Definition is_prime (n : nat) : bool :=
  forallb (fun d => negb (Nat.eqb (Nat.modulo n d) 0)) (seq 2 (n - 2)).

Definition primes (count : nat) : list N :=
  map N.of_nat (firstn count (filter is_prime (seq 2 310))).

(** The largest [r] below [2 ^ bits] with [r ^ 3 <= n]. *)
Fixpoint cube_root (bits : nat) (n r : N) : N :=
  match bits with
  | O => r
  | S bits' =>
      let r' := N.lor r (N.shiftl 1 (N.of_nat bits')) in
      cube_root bits' n (if r' * r' * r' <=? n then r' else r)
  end.

Definition K : list N :=
  Eval vm_compute in
    map (fun p => N.land (cube_root 36 (N.shiftl p 96) 0) mask32) (primes 64).

Definition H0 : list N :=
  Eval vm_compute in
    map (fun p => N.land (N.sqrt (N.shiftl p 64)) mask32) (primes 8).

(** Padding: a single 1 bit, zeros up to 56 modulo 64 bytes, then the
    bit length on 64 bits, big-endian. *)
Definition be_bytes (width : nat) (x : N) : list N :=
  map (fun i => N.land (N.shiftr x (8 * N.of_nat i)) 255) (rev (seq 0 width)).

Definition pad (msg : list N) : list N :=
  let len := N.of_nat (List.length msg) in
  let zeros := N.to_nat ((119 - len mod 64) mod 64) in
  msg ++ [128] ++ repeat 0 zeros ++ be_bytes 8 (8 * len).

Fixpoint be_words (bs : list N) : list N :=
  match bs with
  | a :: b :: c :: d :: bs' =>
      N.lor (N.shiftl a 24) (N.lor (N.shiftl b 16) (N.lor (N.shiftl c 8) d))
        :: be_words bs'
  | _ => []
  end.

Fixpoint chunks (fuel : nat) (n : nat) (ws : list N) : list (list N) :=
  match fuel, ws with
  | O, _ => []
  | _, [] => []
  | S fuel', _ => firstn n ws :: chunks fuel' n (skipn n ws)
  end.

(** The message schedule: [w] holds the words so far, newest first. *)
Fixpoint schedule (rounds : nat) (w : list N) : list N :=
  match rounds with
  | O => rev w
  | S rounds' =>
      let new :=
        add32 (add32 (sigma1 (nth 1 w 0)) (nth 6 w 0))
              (add32 (sigma0 (nth 14 w 0)) (nth 15 w 0)) in
      schedule rounds' (new :: w)
  end.

Record regs : Type := Regs { ra : N; rb : N; rc : N; rd : N;
                             re : N; rf : N; rg : N; rh : N }.

Definition round (r : regs) (kw : N * N) : regs :=
  let (k, w) := kw in
  let t1 := add32 (add32 (add32 (rh r) (Sigma1 (re r)))
                         (add32 (Ch (re r) (rf r) (rg r)) k)) w in
  let t2 := add32 (Sigma0 (ra r)) (Maj (ra r) (rb r) (rc r)) in
  Regs (add32 t1 t2) (ra r) (rb r) (rc r) (add32 (rd r) t1) (re r) (rf r) (rg r).

Definition regs_of (h : list N) : regs :=
  Regs (nth 0 h 0) (nth 1 h 0) (nth 2 h 0) (nth 3 h 0)
       (nth 4 h 0) (nth 5 h 0) (nth 6 h 0) (nth 7 h 0).

Definition compress (h : list N) (block : list N) : list N :=
  let w := schedule 48 (rev block) in
  let r := fold_left round (combine K w) (regs_of h) in
  [ add32 (nth 0 h 0) (ra r); add32 (nth 1 h 0) (rb r);
    add32 (nth 2 h 0) (rc r); add32 (nth 3 h 0) (rd r);
    add32 (nth 4 h 0) (re r); add32 (nth 5 h 0) (rf r);
    add32 (nth 6 h 0) (rg r); add32 (nth 7 h 0) (rh r) ].

Definition byte_of (n : N) : byte :=
  match Byte.of_N n with
  | Some b => b
  | None => x00
  end.

Definition digest_words (msg : list byte) : list N :=
  let ws := be_words (pad (map Byte.to_N msg)) in
  fold_left compress (chunks (List.length ws) 16 ws) H0.

(** [hashlib.sha256(msg).digest()] *)
Definition sha256 (msg : list byte) : list byte :=
  map byte_of (flat_map (be_bytes 4) (digest_words msg)).

End SHA256.

(** [hashlib.sha256(msg).hexdigest()] *)
Definition sha256_hexdigest (msg : list byte) : string :=
  hex (SHA256.sha256 msg).

(** ** Exceptions and the monad of the program

    A Python call either returns a value or raises; in both cases the
    outside world (the database file, the entropy consumed) may have
    changed. *)

Inductive exn : Type :=
| OperationalError (msg : string)   (* sqlite3.OperationalError *)
| IntegrityError (msg : string)     (* sqlite3.IntegrityError *)
| TypeError (msg : string)
| ValueError (msg : string).

Inductive result (A : Type) : Type :=
| Return (a : A)
| Raise (e : exn).

Arguments Return {A} a.
Arguments Raise {A} e.

(** A value of the column [password TEXT NOT NULL]: with TEXT affinity
    SQLite keeps text as text and a BLOB as a BLOB (numbers are turned
    into text on the way in), and NOT NULL excludes NULL.  [Text s] is
    a TEXT value whose bytes are those of [s], whatever they are; the
    Python driver hands a BLOB back as [bytes] and TEXT as a [str],
    once decoded. *)
Inductive cell : Type :=
| Text (s : string)
| Blob (b : list byte).

(** The rows of [users], oldest first.  Only rows whose [username] is
    text are kept: no other row can match or clash with the text
    parameter the source binds. *)
Definition table : Type := list (string * cell).

Record world : Type := World {
  disk : option table;          (* the table [users] of users.db, if any *)
  connect_fault : option exn;   (* the file cannot be opened *)
  execute_fault : option exn;   (* a statement fails in the storage layer *)
  commit_fault : option exn;    (* the commit fails in the storage layer *)
  entropy : nat -> byte;        (* the bytes the OS will hand out *)
  drawn : nat                   (* how many of them were consumed *)
}.

Definition set_disk (w : world) (d : option table) : world :=
  World d (connect_fault w) (execute_fault w) (commit_fault w)
        (entropy w) (drawn w).

Definition M (A : Type) : Type := world -> result A * world.

Definition ret {A} (a : A) : M A := fun w => (Return a, w).
Definition raise {A} (e : exn) : M A := fun w => (Raise e, w).
Definition bind {A B} (m : M A) (k : A -> M B) : M B :=
  fun w => match m w with
           | (Return a, w') => k a w'
           | (Raise e, w') => (Raise e, w')
           end.

(** [try: body  except: handler] with a bare [except]. *)
Definition try_except {A} (body : M A) (handler : exn -> M A) : M A :=
  fun w => match body w with
           | (Return a, w') => (Return a, w')
           | (Raise e, w') => handler e w'
           end.

Notation "x <- m ;; k" := (bind m (fun x => k))
  (at level 61, m at next level, right associativity).
Notation "m ;;; k" := (bind m (fun _ => k))
  (at level 61, right associativity).

(** ** sqlite3, as far as the source uses it *)

(** An open connection: its view of [users], uncommitted insertions
    included. *)
Record connection : Type := Connection { pending : option table }.

Inductive statement : Type :=
| CreateUsersTable                              (* CREATE TABLE IF NOT EXISTS users ... *)
| SelectPassword (username : string)            (* SELECT password FROM users WHERE username=? *)
| InsertUser (username password : string).      (* INSERT INTO users(username,password) VALUES (?,?) *)

Definition no_such_table : exn := OperationalError "no such table: users".
Definition unique_failed : exn :=
  IntegrityError "UNIQUE constraint failed: users.username".

(** [WHERE username=?]: the BINARY collation, byte for byte. *)
Definition select_password (t : table) (username : string) : list cell :=
  map snd (filter (fun r => String.eqb (fst r) username) t).

Definition has_user (t : table) (username : string) : bool :=
  existsb (fun r => String.eqb (fst r) username) t.

(** [sqlite3.connect("users.db")] *)
Definition connect : M connection :=
  fun w => match connect_fault w with
           | Some e => (Raise e, w)
           | None => (Return (Connection (disk w)), w)
           end.

(** [cursor.execute(sql, params)]: the connection afterwards and the
    rows the cursor holds.  The driver opens a transaction before an
    INSERT only; CREATE TABLE runs in autocommit mode and reaches the
    file at once. *)
Definition execute (c : connection) (q : statement)
  : M (connection * list cell) :=
  fun w =>
    match execute_fault w with
    | Some e => (Raise e, w)
    | None =>
        match q, pending c with
        | CreateUsersTable, Some _ => (Return (c, []), w)
        | CreateUsersTable, None =>
            (Return (Connection (Some []), []), set_disk w (Some []))
        | SelectPassword u, Some t => (Return (c, select_password t u), w)
        | InsertUser u p, Some t =>
            if has_user t u then (Raise unique_failed, w)
            else (Return (Connection (Some (t ++ [(u, Text p)])%list), []), w)
        | _, None => (Raise no_such_table, w)
        end
    end.

(** The strict UTF-8 decoder of CPython accepts a byte sequence when it
    is a run of well-formed characters: one byte below 80; C2 to DF and
    one continuation byte; E0 to EF and two, without the overlong forms
    (E0 then below A0) and the surrogates (ED then above 9F); F0 to F4
    and three, without the overlong forms (F0 then below 90) and the
    values above U+10FFFF (F4 then above 8F). *)
Definition is_continuation (n : N) : bool := ((0x80 <=? n) && (n <=? 0xBF))%N.

Definition second_of_three (lead n : N) : bool :=
  (if lead =? 0xE0 then (0xA0 <=? n) && (n <=? 0xBF)
   else if lead =? 0xED then (0x80 <=? n) && (n <=? 0x9F)
   else is_continuation n)%N.

Definition second_of_four (lead n : N) : bool :=
  (if lead =? 0xF0 then (0x90 <=? n) && (n <=? 0xBF)
   else if lead =? 0xF4 then (0x80 <=? n) && (n <=? 0x8F)
   else is_continuation n)%N.

Fixpoint valid_utf8 (bs : list byte) : bool :=
  match bs with
  | [] => true
  | b0 :: r0 =>
      let n0 := Byte.to_N b0 in
      if (n0 <? 0x80)%N then valid_utf8 r0
      else
        match r0 with
        | [] => false
        | b1 :: r1 =>
            let n1 := Byte.to_N b1 in
            if ((0xC2 <=? n0) && (n0 <=? 0xDF))%N then
              is_continuation n1 && valid_utf8 r1
            else
              match r1 with
              | [] => false
              | b2 :: r2 =>
                  let n2 := Byte.to_N b2 in
                  if ((0xE0 <=? n0) && (n0 <=? 0xEF))%N then
                    second_of_three n0 n1 && is_continuation n2
                    && valid_utf8 r2
                  else
                    match r2 with
                    | [] => false
                    | b3 :: r3 =>
                        ((0xF0 <=? n0) && (n0 <=? 0xF4))%N
                        && second_of_four n0 n1 && is_continuation n2
                        && is_continuation (Byte.to_N b3)
                        && valid_utf8 r3
                    end
              end
        end
  end.

(** What the driver raises for a TEXT value it cannot decode; its
    message goes on with a rendering of the value. *)
Definition could_not_decode : exn :=
  OperationalError "Could not decode to UTF-8 column 'password'".

(** The first row the cursor holds, as stored. *)
Definition first_row (rows : list cell) : option cell := hd_error rows.

(** The conversion of a row to Python values: a BLOB becomes [bytes],
    TEXT is decoded as UTF-8 into a [str], which fails on bytes that
    are not UTF-8. *)
Definition decode_row (row : option cell) : result (option cell) :=
  match row with
  | Some (Text s) =>
      if valid_utf8 (encode s) then Return row else Raise could_not_decode
  | _ => Return row
  end.

(** [cursor.fetchone()] *)
Definition fetchone (rows : list cell) : M (option cell) :=
  fun w => (decode_row (first_row rows), w).

(** [conn.commit()] *)
Definition commit (c : connection) : M unit :=
  fun w => match commit_fault w with
           | Some e => (Raise e, w)
           | None => (Return tt, set_disk w (pending c))
           end.

(** [conn.close()]: what was not committed is dropped. *)
Definition close (c : connection) : M unit := ret tt.

(** [os.urandom(n)] *)
Definition os_urandom (n : nat) : M (list byte) :=
  fun w => (Return (map (entropy w) (seq (drawn w) n)),
            World (disk w) (connect_fault w) (execute_fault w)
                  (commit_fault w) (entropy w) (drawn w + n)).

(** ** database/db.py *)

Definition connect_db : M connection := connect.

Definition create_users_table : M unit :=
  conn <- connect_db ;;
  r <- execute conn CreateUsersTable ;;
  commit (fst r) ;;;
  close (fst r).

(** ** database/user_auth.py *)

Definition hash_password (password : string) (salt : option string)
  : M string :=
  salt <- match salt with
          | None => rnd <- os_urandom 32 ;; ret (hex rnd)
          | Some s => ret s
          end ;;
  let password_with_salt := encode (password ++ salt) in
  let hashed := sha256_hexdigest password_with_salt in
  ret (salt ++ ":" ++ hashed).

Definition verify_user (username password : string) : M bool :=
  conn <- connect_db ;;
  r <- execute conn (SelectPassword username) ;;
  result <- fetchone (snd r) ;;
  close (fst r) ;;;
  match result with
  | None => ret false
  | Some (Blob _) =>
      (* [':' in stored_password] on [bytes] *)
      raise (TypeError "a bytes-like object is required, not 'str'")
  | Some (Text stored_password) =>
      if str_contains colon stored_password then
        match str_split1 colon stored_password with
        | [salt; _] =>
            hashed_input <- hash_password password (Some salt) ;;
            ret (String.eqb hashed_input stored_password)
        | _ => raise (ValueError "not enough values to unpack (expected 2, got 1)")
        end
      else
        ret (String.eqb (sha256_hexdigest (encode password)) stored_password)
  end.

(** The [try] block of [add_test_user] with its bare [except: pass],
    for an arbitrary row [test_user]. *)
Definition insert_or_pass (conn : connection) (test_user : string * string)
  : M unit :=
  try_except
    (r <- execute conn (InsertUser (fst test_user) (snd test_user)) ;;
     commit (fst r))
    (fun _ => ret tt).

Definition add_test_user : M unit :=
  conn <- connect_db ;;
  cred <- hash_password "admin123" None ;;
  let test_user := ("admin", cred) in
  insert_or_pass conn test_user ;;;
  close conn.

(** ** What the statements below speak about *)

(** No storage fault on the read path. *)
Definition readable (w : world) : Prop :=
  connect_fault w = None /\ execute_fault w = None.

(** The table exists and the lookup of [u] yields [v]. *)
Definition stores (w : world) (u : string) (v : cell) : Prop :=
  exists t, disk w = Some t /\ first_row (select_password t u) = Some v.

(** The driver can hand the value back: a BLOB always, TEXT when its
    bytes are UTF-8. *)
Definition decodable (v : cell) : bool :=
  match v with
  | Text s => valid_utf8 (encode s)
  | Blob _ => true
  end.

(** The table exists and holds no record for [u]. *)
Definition no_record (w : world) (u : string) : Prop :=
  exists t, disk w = Some t /\ select_password t u = [].

(** One record per username. *)
Definition unique_usernames (w : world) : Prop :=
  forall t, disk w = Some t -> NoDup (map fst t).

(** The comparison path of [verify_user] (lines 31 to 43) as a function
    of the fetched row; used to state what a run computes. *)
Definition comparison (row : option cell) (password : string)
  : result bool :=
  match row with
  | None => Return false
  | Some (Blob _) =>
      Raise (TypeError "a bytes-like object is required, not 'str'")
  | Some (Text stored_password) =>
      if str_contains colon stored_password then
        match str_partition colon stored_password with
        | Some (salt, _) =>
            Return (String.eqb
                      (salt ++ ":" ++ sha256_hexdigest (encode (password ++ salt)))
                      stored_password)
        | None =>
            Raise (ValueError "not enough values to unpack (expected 2, got 1)")
        end
      else
        Return (String.eqb (sha256_hexdigest (encode password)) stored_password)
  end.

(** What [verify_user] computes from the first row of the cursor: the
    conversion of the row, then the comparison. *)
Definition verification (row : option cell) (password : string)
  : result bool :=
  match decode_row row with
  | Return fetched => comparison fetched password
  | Raise e => Raise e
  end.

(** [bytes.fromhex], the inverse of [hex]. *)
Definition hex_value (a : ascii) : N :=
  match a with
  | "0" => 0 | "1" => 1 | "2" => 2 | "3" => 3
  | "4" => 4 | "5" => 5 | "6" => 6 | "7" => 7
  | "8" => 8 | "9" => 9 | "a" => 10 | "b" => 11
  | "c" => 12 | "d" => 13 | "e" => 14 | _ => 15
  end%char%N.

Fixpoint fromhex (s : string) : list byte :=
  match s with
  | String hi (String lo s') =>
      SHA256.byte_of (16 * hex_value hi + hex_value lo) :: fromhex s'
  | _ => []
  end.

(** No storage fault at all. *)
Definition faultless (w : world) : Prop :=
  connect_fault w = None /\ execute_fault w = None /\ commit_fault w = None.

(** The salt the next [hash_password(p)] without a salt draws in [w]. *)
Definition fresh_salt (w : world) : string :=
  hex (map (entropy w) (seq (drawn w) 32)).

Definition draw (w : world) (n : nat) : world :=
  World (disk w) (connect_fault w) (execute_fault w) (commit_fault w)
        (entropy w) (drawn w + n).

(** ** Sample worlds *)

Definition sample_entropy (n : nat) : byte :=
  SHA256.byte_of (N.of_nat (7 * n + 3) mod 256).

(** No database yet, no fault. *)
Definition fresh_world : world :=
  World None None None None sample_entropy 0.

(** A database whose table holds exactly [rows], no fault. *)
Definition world_with (rows : table) : world :=
  World (Some rows) None None None sample_entropy 0.

(** The credential [hash_password(p)] returns in [w]. *)
Definition credential_of (p : string) (w : world) : string :=
  match fst (hash_password p None w) with
  | Return cred => cred
  | Raise _ => ""
  end.

(** One byte that no UTF-8 text holds. *)
Definition garbled : string := String "255"%char EmptyString.

(** A database file that is there but locked by another process. *)
Definition locked_world (rows : table) : world :=
  World (Some rows) None (Some (OperationalError "database is locked")) None
        sample_entropy 0.

(** ** main.py: what [main] does before any window opens *)

(** Lines 15 to 17 of [main]: the schema, then the demonstration
    account. *)
Definition main_init : M unit :=
  create_users_table ;;;
  add_test_user.

(** ** [str.strip()]

    Without argument it removes, at both ends, the characters CPython
    counts as white space: U+0009 to U+000D, U+001C to U+0020, U+0085,
    U+00A0, U+1680, U+2000 to U+200A, U+2028, U+2029, U+202F, U+205F
    and U+3000; here in their UTF-8 encodings of one, two or three
    bytes. *)

Definition is_space1 (a : ascii) : bool :=
  let n := N_of_ascii a in
  ((9 <=? n) && (n <=? 13) || (28 <=? n) && (n <=? 32))%N.

Definition is_space2 (a b : ascii) : bool :=
  let (m, n) := (N_of_ascii a, N_of_ascii b) in
  ((m =? 0xC2) && ((n =? 0x85) || (n =? 0xA0)))%N.

Definition is_space3 (a b c : ascii) : bool :=
  let '(l, m, n) := (N_of_ascii a, N_of_ascii b, N_of_ascii c) in
  ((l =? 0xE1) && (m =? 0x9A) && (n =? 0x80)
   || (l =? 0xE2) && (m =? 0x80)
      && ((0x80 <=? n) && (n <=? 0x8A)
          || (n =? 0xA8) || (n =? 0xA9) || (n =? 0xAF))
   || (l =? 0xE2) && (m =? 0x81) && (n =? 0x9F)
   || (l =? 0xE3) && (m =? 0x80) && (n =? 0x80))%N.

(** [s.lstrip()] *)
Fixpoint py_lstrip (s : string) : string :=
  match s with
  | EmptyString => s
  | String a s1 =>
      if is_space1 a then py_lstrip s1
      else match s1 with
           | EmptyString => s
           | String b s2 =>
               if is_space2 a b then py_lstrip s2
               else match s2 with
                    | EmptyString => s
                    | String c s3 =>
                        if is_space3 a b c then py_lstrip s3 else s
                    end
           end
  end.

Fixpoint str_rev_append (s acc : string) : string :=
  match s with
  | EmptyString => acc
  | String a s' => str_rev_append s' (String a acc)
  end.

Definition str_rev (s : string) : string := str_rev_append s EmptyString.

(** The same scan from the other end, on the reversed text, where the
    bytes of a character come last byte first. *)
Fixpoint py_lstrip_rev (s : string) : string :=
  match s with
  | EmptyString => s
  | String a s1 =>
      if is_space1 a then py_lstrip_rev s1
      else match s1 with
           | EmptyString => s
           | String b s2 =>
               if is_space2 b a then py_lstrip_rev s2
               else match s2 with
                    | EmptyString => s
                    | String c s3 =>
                        if is_space3 c b a then py_lstrip_rev s3 else s
                    end
           end
  end.

(** [s.rstrip()] *)
Definition py_rstrip (s : string) : string :=
  str_rev (py_lstrip_rev (str_rev s)).

(** [s.strip()] *)
Definition py_strip (s : string) : string := py_rstrip (py_lstrip s).

(** [not s] for a string. *)
Definition str_is_empty (s : string) : bool :=
  match s with
  | EmptyString => true
  | String _ _ => false
  end.

(** ** ui/login_window.py: [LoginWindow.login]

    The handler reads the two entries and acts on the window; what it
    does to the window is recorded as the list of its calls, in
    order. *)

Inductive ui_event : Type :=
| ShowError (title message : string)   (* messagebox.showerror(title, message) *)
| RootDestroy                          (* self.root.destroy() *)
| OnSuccess (username : string)        (* self.on_success_callback(username) *)
| PasswordDelete                       (* self.password_entry.delete(0, tk.END) *)
| PasswordShow (mask : string)         (* self.password_entry.config(show=mask) *)
| PasswordInsert (text : string)       (* self.password_entry.insert(0, text) *)
| PasswordColour (fg : string)         (* self.password_entry.config(fg=fg) *)
| UsernameFocus.                       (* self.username_entry.focus() *)

Definition missing_fields : list ui_event :=
  [ShowError "Error" "Please enter both username and password"].

Definition invalid_credentials : list ui_event :=
  [ShowError "Error" "Invalid username or password";
   PasswordDelete; PasswordShow ""; PasswordInsert "Password";
   PasswordColour "#8c8c8c"; UsernameFocus].

(** [username_entry] and [password_entry] are what the two
    [Entry.get()] calls return. *)
Definition login (username_entry password_entry : string)
  : M (list ui_event) :=
  let username := py_strip username_entry in
  let password := password_entry in
  let username :=
    if String.eqb username "Email or phone number" then "" else username in
  let password :=
    if String.eqb password "Password" then "" else password in
  if str_is_empty username || str_is_empty password then
    ret missing_fields
  else
    ok <- verify_user username password ;;
    if ok then ret [RootDestroy; OnSuccess username]
    else ret invalid_credentials.

(** The guard of [login]: after the placeholders are blanked, one of
    the two fields is empty. *)
Definition fields_missing (username_entry password_entry : string) : Prop :=
  py_strip username_entry = ""
  \/ py_strip username_entry = "Email or phone number"
  \/ password_entry = ""
  \/ password_entry = "Password".

(** ** services/tmdb_api.py: the address builders *)

Definition IMAGE_BASE_URL : string := "https://image.tmdb.org/t/p/".

(** [poster_path] is what [item.get("poster_path")] gave: a string, or
    [None] for a missing key or a JSON null.  [size] is [None] when the
    caller leaves the default. *)
Definition get_poster_url (poster_path : option string) (size : option string)
  : option string :=
  let size := match size with Some s => s | None => "w500" end in
  match poster_path with
  | Some p =>
      if str_is_empty p then None else Some (IMAGE_BASE_URL ++ size ++ p)
  | None => None
  end.

Definition get_backdrop_url (backdrop_path : option string)
           (size : option string) : option string :=
  let size := match size with Some s => s | None => "w1280" end in
  match backdrop_path with
  | Some p =>
      if str_is_empty p then None else Some (IMAGE_BASE_URL ++ size ++ p)
  | None => None
  end.

Definition get_youtube_url (video_key : string) : string :=
  "https://www.youtube.com/watch?v=" ++ video_key.

(** ** media/movie_grid.py: the bookkeeping of [display_items]

    Where the source measures and slices a text, the text is the list
    of its code points. *)

Definition text : Type := list N.

Definition text_of (s : string) : text :=
  map N_of_ascii (list_ascii_of_string s).

Definition max_cols : nat := 4.

(** Lines 134 to 138: the move to the next position. *)
Definition next_position (position : nat * nat) : nat * nat :=
  let (row, col) := position in
  let col := col + 1 in
  if Nat.leb max_cols col then (row + 1, 0) else (row, col).

(** The loop of lines 48 to 138 as far as the position goes: each item
    with the [row] and [column] its frame is put at. *)
Fixpoint placed_from {A : Type} (position : nat * nat) (items : list A)
  : list (A * (nat * nat)) :=
  match items with
  | [] => []
  | item :: rest => (item, position) :: placed_from (next_position position) rest
  end.

Definition placed {A : Type} (items : list A) : list (A * (nat * nat)) :=
  placed_from (0, 0) items.

(** Line 62: [title if len(title) <= 20 else title[:17] + "..."]. *)
Definition display_title (title : text) : text :=
  if Nat.leb (List.length title) 20 then title
  else (firstn 17 title ++ text_of "...")%list.

(** Lines 52, 53 and 56, 57: [date[:4] if date else "N/A"], where
    [date] is a string or, for a JSON null, [None]. *)
Definition year_label (date : option text) : text :=
  match date with
  | Some (c :: d) => firstn 4 (c :: d)
  | _ => text_of "N/A"
  end.

(** ** SHA-256 on the test vectors of the standard *)

Example sha256_empty :
  sha256_hexdigest (encode "")
  = "e3b0c44298fc1c149afbf4c8996fb92427ae41e4649b934ca495991b7852b855".
Proof. vm_compute. reflexivity. Qed.

Example sha256_abc :
  sha256_hexdigest (encode "abc")
  = "ba7816bf8f01cfea414140de5dae2223b00361a396177a9cb410ff61f20015ad".
Proof. vm_compute. reflexivity. Qed.

Example sha256_two_blocks :
  sha256_hexdigest
    (encode "abcdbcdecdefdefgefghfghighijhijkijkljklmklmnlmnomnopnopq")
  = "248d6a61d20638b8e5c026930c3e6039a33ce45964ff2167f6ecedd419db06c1".
Proof. vm_compute. reflexivity. Qed.

(** ** Text lemmas *)

Section Text.

Variable c : ascii.

Lemma append_assoc (a b d : string) : (a ++ b) ++ d = a ++ (b ++ d).
Proof. induction a as [|x a IH]; simpl; [reflexivity | now rewrite IH]. Qed.

Lemma append_cancel_l (a x y : string) : a ++ x = a ++ y -> x = y.
Proof.
  induction a as [|h a IH]; simpl; intros H; [exact H|].
  injection H as H. auto.
Qed.

Lemma length_append (a b : string) :
  String.length (a ++ b) = String.length a + String.length b.
Proof. induction a as [|x a IH]; simpl; [reflexivity | now rewrite IH]. Qed.

Lemma append_cancel_r (a b x : string) : a ++ x = b ++ x -> a = b.
Proof.
  revert b. induction a as [|h a IH]; intros [|k b] H; simpl in H.
  - reflexivity.
  - apply (f_equal String.length) in H. simpl in H.
    rewrite length_append in H. lia.
  - apply (f_equal String.length) in H. simpl in H.
    rewrite length_append in H. lia.
  - injection H as -> H. f_equal. auto.
Qed.

Lemma str_contains_app (a b : string) :
  str_contains c (a ++ b) = str_contains c a || str_contains c b.
Proof.
  induction a as [|x a IH]; simpl; [reflexivity|].
  destruct (Ascii.eqb x c); [reflexivity | exact IH].
Qed.

Lemma str_partition_first (a b : string) :
  str_contains c a = false ->
  str_partition c (a ++ String c b) = Some (a, b).
Proof.
  induction a as [|x a IH]; simpl.
  - intros _. now rewrite Ascii.eqb_refl.
  - destruct (Ascii.eqb x c); [discriminate|].
    intros H. now rewrite (IH H).
Qed.

Lemma str_partition_sound (s l r : string) :
  str_partition c s = Some (l, r) ->
  s = l ++ String c r /\ str_contains c l = false.
Proof.
  revert l r. induction s as [|x s IH]; simpl; intros l r H; [discriminate|].
  destruct (Ascii.eqb_spec x c) as [->|Hx].
  - injection H as <- <-. now split.
  - destruct (str_partition c s) as [[l' r']|]; [|discriminate].
    injection H as <- <-. destruct (IH l' r' eq_refl) as [-> Hl].
    split; [reflexivity|]. simpl.
    destruct (Ascii.eqb_spec x c); [contradiction | exact Hl].
Qed.

Lemma str_partition_complete (s : string) :
  str_contains c s = true -> exists l r, str_partition c s = Some (l, r).
Proof.
  induction s as [|x s IH]; simpl; [discriminate|].
  destruct (Ascii.eqb x c); [now eexists _, _|].
  intros H. destruct (IH H) as (l & r & ->). now eexists _, _.
Qed.

Lemma str_partition_none (s : string) :
  str_contains c s = false -> str_partition c s = None.
Proof.
  induction s as [|x s IH]; simpl; [reflexivity|].
  destruct (Ascii.eqb x c); [discriminate|].
  intros H. now rewrite (IH H).
Qed.

End Text.

Lemma encode_app (a b : string) : encode (a ++ b) = (encode a ++ encode b)%list.
Proof.
  unfold encode, list_byte_of_string.
  induction a as [|x a IH]; simpl; [reflexivity | now rewrite IH].
Qed.

Lemma encode_inj (a b : string) : encode a = encode b -> a = b.
Proof.
  unfold encode. intros H.
  rewrite <- (string_of_list_byte_of_string a), H.
  apply string_of_list_byte_of_string.
Qed.

(** ** Hexadecimal rendering *)

Lemma hex_digit_lower (n : N) : is_lower_hex_digit (hex_digit n) = true.
Proof.
  destruct n as [|p]; [reflexivity|].
  do 4 (destruct p as [p|p|]; try reflexivity).
Qed.

Lemma hex_lower (bs : list byte) : all_chars is_lower_hex_digit (hex bs) = true.
Proof.
  induction bs as [|b bs IH]; simpl; [reflexivity|].
  now rewrite !hex_digit_lower, IH.
Qed.

Lemma lower_hex_digit_not_colon (a : ascii) :
  is_lower_hex_digit a = true -> Ascii.eqb a colon = false.
Proof.
  destruct a as [[|] [|] [|] [|] [|] [|] [|] [|]]; cbv; intros H;
    first [reflexivity | discriminate H].
Qed.

Lemma all_lower_hex_no_colon (s : string) :
  all_chars is_lower_hex_digit s = true -> str_contains colon s = false.
Proof.
  induction s as [|a s IH]; simpl; [reflexivity|].
  intros H. apply andb_prop in H as [Ha Hs].
  now rewrite (lower_hex_digit_not_colon a Ha), (IH Hs).
Qed.

Lemma hex_no_colon (bs : list byte) : str_contains colon (hex bs) = false.
Proof. apply all_lower_hex_no_colon, hex_lower. Qed.

Lemma hex_length (bs : list byte) :
  String.length (hex bs) = 2 * List.length bs.
Proof. induction bs as [|b bs IH]; simpl; [reflexivity | rewrite IH; lia]. Qed.

Lemma fromhex_byte (b : byte) :
  SHA256.byte_of
    (16 * hex_value (hex_digit (N.shiftr (Byte.to_N b) 4))
     + hex_value (hex_digit (N.land (Byte.to_N b) 15))) = b.
Proof. destruct b; reflexivity. Qed.

Lemma fromhex_hex (bs : list byte) : fromhex (hex bs) = bs.
Proof.
  induction bs as [|b bs IH]; [reflexivity|].
  cbn [hex fromhex]. now rewrite fromhex_byte, IH.
Qed.

Lemma hex_inj (bs bs' : list byte) : hex bs = hex bs' -> bs = bs'.
Proof. intros H. now rewrite <- (fromhex_hex bs), H, fromhex_hex. Qed.

(** ** The digest is 32 bytes long *)

Lemma compress_length (h block : list N) :
  List.length (SHA256.compress h block) = 8.
Proof. reflexivity. Qed.

Lemma fold_compress_length (blocks : list (list N)) (h : list N) :
  List.length h = 8 ->
  List.length (fold_left SHA256.compress blocks h) = 8.
Proof.
  revert h. induction blocks as [|b blocks IH]; intros h Hh; simpl.
  - exact Hh.
  - apply IH, compress_length.
Qed.

Lemma flat_map_be_bytes_length (ws : list N) :
  List.length (flat_map (SHA256.be_bytes 4) ws) = 4 * List.length ws.
Proof.
  induction ws as [|x ws IH]; [reflexivity|].
  cbn [flat_map]. rewrite List.length_app, IH.
  unfold SHA256.be_bytes. rewrite List.length_map, List.length_rev, List.length_seq.
  simpl. lia.
Qed.

Lemma sha256_length (msg : list byte) : List.length (SHA256.sha256 msg) = 32.
Proof.
  unfold SHA256.sha256, SHA256.digest_words.
  rewrite List.length_map, flat_map_be_bytes_length, fold_compress_length;
    reflexivity.
Qed.

Lemma sha256_hexdigest_length (msg : list byte) :
  String.length (sha256_hexdigest msg) = 64.
Proof. unfold sha256_hexdigest. now rewrite hex_length, sha256_length. Qed.

Lemma sha256_hexdigest_no_colon (msg : list byte) :
  str_contains colon (sha256_hexdigest msg) = false.
Proof. apply hex_no_colon. Qed.

(** ** Text that decodes *)

Lemma valid_utf8_ascii (bs : list byte) :
  forallb (fun b => (Byte.to_N b <? 0x80)%N) bs = true ->
  valid_utf8 bs = true.
Proof.
  induction bs as [|b bs IH]; [reflexivity|].
  cbn [forallb valid_utf8]. intros H. apply andb_prop in H as [Hb Hbs].
  rewrite Hb. exact (IH Hbs).
Qed.

(** A decodable text followed by any bytes decodes exactly when the
    bytes that follow do. *)
Lemma valid_utf8_app (a b : list byte) :
  valid_utf8 a = true -> valid_utf8 (a ++ b)%list = valid_utf8 b.
Proof.
  remember (List.length a) as n eqn:Hn. revert a Hn.
  induction n as [n IH] using (well_founded_induction Wf_nat.lt_wf).
  intros a Hn Ha. destruct a as [|b0 r0]; [reflexivity|].
  cbn [valid_utf8 app] in *.
  destruct (Byte.to_N b0 <? 0x80)%N.
  { apply (IH (List.length r0)); [subst n; cbn; lia | reflexivity | exact Ha]. }
  destruct r0 as [|b1 r1]; [discriminate|]. cbn [app] in *.
  destruct ((0xC2 <=? Byte.to_N b0) && (Byte.to_N b0 <=? 0xDF))%N.
  { apply andb_prop in Ha as [H1 Ha]. rewrite H1. cbn [andb].
    apply (IH (List.length r1)); [subst n; cbn; lia | reflexivity | exact Ha]. }
  destruct r1 as [|b2 r2]; [discriminate|]. cbn [app] in *.
  destruct ((0xE0 <=? Byte.to_N b0) && (Byte.to_N b0 <=? 0xEF))%N.
  { apply andb_prop in Ha as [H1 Ha]. rewrite H1. cbn [andb].
    apply (IH (List.length r2)); [subst n; cbn; lia | reflexivity | exact Ha]. }
  destruct r2 as [|b3 r3]; [discriminate|]. cbn [app] in *.
  apply andb_prop in Ha as [H1 Ha]. rewrite H1. cbn [andb].
  apply (IH (List.length r3)); [subst n; cbn; lia | reflexivity | exact Ha].
Qed.

Lemma lower_hex_digit_ascii (a : ascii) :
  is_lower_hex_digit a = true \/ a = colon ->
  (Byte.to_N (byte_of_ascii a) <? 0x80)%N = true.
Proof.
  intros [H| ->]; [|reflexivity]. revert H.
  destruct a as [[|] [|] [|] [|] [|] [|] [|] [|]]; cbv; intros H;
    first [reflexivity | discriminate H].
Qed.

Lemma valid_utf8_lower_hex (s : string) :
  all_chars is_lower_hex_digit s = true -> valid_utf8 (encode s) = true.
Proof.
  intros H. apply valid_utf8_ascii. revert H.
  unfold encode, list_byte_of_string.
  induction s as [|a s IH]; [reflexivity|].
  cbn [all_chars list_ascii_of_string map forallb]. intros H.
  apply andb_prop in H as [Ha Hs].
  rewrite (lower_hex_digit_ascii a (or_introl Ha)). exact (IH Hs).
Qed.

(** A credential [salt:digest] decodes as soon as the salt does. *)
Lemma valid_utf8_salted (salt : string) (bs : list byte) :
  valid_utf8 (encode salt) = true ->
  valid_utf8 (encode (salt ++ ":" ++ hex bs)) = true.
Proof.
  intros Hs. rewrite encode_app, (valid_utf8_app _ _ Hs).
  change (encode (":" ++ hex bs)) with (byte_of_ascii colon :: encode (hex bs)).
  cbn [valid_utf8]. rewrite (lower_hex_digit_ascii colon (or_intror eq_refl)).
  apply valid_utf8_lower_hex, hex_lower.
Qed.

Lemma decodable_credential (p : string) (w : world) :
  decodable
    (Text (fresh_salt w ++ ":"
           ++ sha256_hexdigest (encode (p ++ fresh_salt w)))) = true.
Proof.
  apply valid_utf8_salted, valid_utf8_lower_hex, hex_lower.
Qed.

(** ** Runs of the program *)

Lemma hash_password_salted (p s : string) (w : world) :
  hash_password p (Some s) w
  = (Return (s ++ ":" ++ sha256_hexdigest (encode (p ++ s))), w).
Proof. reflexivity. Qed.

Lemma hash_password_fresh (p : string) (w : world) :
  hash_password p None w
  = (Return (fresh_salt w ++ ":"
             ++ sha256_hexdigest (encode (p ++ fresh_salt w))),
     draw w 32).
Proof. reflexivity. Qed.

Lemma hash_password_fresh_inv (p cred : string) (w w' : world) :
  hash_password p None w = (Return cred, w') ->
  cred = fresh_salt w ++ ":" ++ sha256_hexdigest (encode (p ++ fresh_salt w)).
Proof. rewrite hash_password_fresh. congruence. Qed.

Lemma hash_password_salted_inv (p s cred : string) (w w' : world) :
  hash_password p (Some s) w = (Return cred, w') ->
  cred = s ++ ":" ++ sha256_hexdigest (encode (p ++ s)).
Proof. rewrite hash_password_salted. congruence. Qed.

Lemma fresh_salt_valid (w : world) :
  valid_utf8 (encode (fresh_salt w)) = true.
Proof. apply valid_utf8_lower_hex, hex_lower. Qed.

Lemma fresh_salt_no_colon (w : world) :
  str_contains colon (fresh_salt w) = false.
Proof. apply hex_no_colon. Qed.

Lemma verify_user_readable (u p : string) (w : world) (t : table) :
  readable w -> disk w = Some t ->
  verify_user u p w = (verification (first_row (select_password t u)) p, w).
Proof.
  intros [Hc He] Hd.
  unfold verify_user, bind, connect_db, connect, execute, fetchone, close, ret.
  rewrite Hc, He. cbn [pending fst snd]. rewrite Hd. cbn [pending fst snd].
  unfold verification.
  destruct (first_row (select_password t u)) as [[s|b]|];
    cbn [decode_row comparison]; try reflexivity.
  destruct (valid_utf8 (encode s)); [|reflexivity]. cbn [comparison].
  unfold str_split1.
  destruct (str_contains colon s); [|reflexivity].
  destruct (str_partition colon s) as [[l r]|]; reflexivity.
Qed.

Lemma verify_user_stores (u p : string) (w : world) (v : cell) :
  readable w -> stores w u v -> decodable v = true ->
  verify_user u p w = (comparison (Some v) p, w).
Proof.
  intros Hr (t & Hd & Hf) Hv. rewrite (verify_user_readable u p w t Hr Hd).
  rewrite Hf. unfold verification.
  destruct v as [s|b]; cbn [decode_row decodable] in *; [|reflexivity].
  now rewrite Hv.
Qed.

Lemma verify_user_undecodable (u p s : string) (w : world) :
  readable w -> stores w u (Text s) -> valid_utf8 (encode s) = false ->
  verify_user u p w = (Raise could_not_decode, w).
Proof.
  intros Hr (t & Hd & Hf) Hv. rewrite (verify_user_readable u p w t Hr Hd).
  rewrite Hf. unfold verification. cbn [decode_row]. now rewrite Hv.
Qed.

(** ** The comparison on credentials of the form [salt:digest] *)

Lemma salted_has_colon (salt h : string) :
  str_contains colon (salt ++ ":" ++ h) = true.
Proof. rewrite str_contains_app. simpl. apply orb_true_r. Qed.

Lemma comparison_same_password (p salt : string) :
  str_contains colon salt = false ->
  comparison
    (Some (Text (salt ++ ":" ++ sha256_hexdigest (encode (p ++ salt))))) p
  = Return true.
Proof.
  intros Hs. cbn [comparison]. rewrite salted_has_colon.
  change (salt ++ ":" ++ ?h) with (salt ++ String colon h).
  rewrite (str_partition_first colon salt _ Hs).
  now rewrite String.eqb_refl.
Qed.

Lemma comparison_other_password (p1 p2 salt : string) :
  str_contains colon salt = false ->
  sha256_hexdigest (encode (p2 ++ salt))
  <> sha256_hexdigest (encode (p1 ++ salt)) ->
  comparison
    (Some (Text (salt ++ ":" ++ sha256_hexdigest (encode (p1 ++ salt))))) p2
  = Return false.
Proof.
  intros Hs Hne. cbn [comparison]. rewrite salted_has_colon.
  change (salt ++ ":" ++ ?h) with (salt ++ String colon h).
  rewrite (str_partition_first colon salt _ Hs).
  f_equal. apply String.eqb_neq. intros H.
  apply append_cancel_l in H. injection H as H. contradiction.
Qed.

Lemma comparison_salt_with_colon (p s : string) :
  str_contains colon s = true ->
  comparison
    (Some (Text (s ++ ":" ++ sha256_hexdigest (encode (p ++ s))))) p
  = Return false.
Proof.
  intros Hs. cbn [comparison]. rewrite salted_has_colon.
  destruct (str_partition_complete colon s Hs) as (a & b & Hp).
  destruct (str_partition_sound colon s a b Hp) as [-> Ha].
  change (?x ++ ":" ++ ?h) with (x ++ String colon h).
  rewrite append_assoc. cbn [append].
  rewrite (str_partition_first colon a _ Ha).
  f_equal. apply String.eqb_neq. intros H.
  apply append_cancel_l in H. injection H as H.
  apply (f_equal (str_contains colon)) in H.
  rewrite sha256_hexdigest_no_colon, str_contains_app in H.
  simpl in H. now rewrite orb_true_r in H.
Qed.

Lemma other_password_rejected (u P1 P2 salt : string) (w : world) :
  P1 <> P2 ->
  str_contains colon salt = false ->
  valid_utf8 (encode salt) = true ->
  readable w ->
  stores w u
    (Text (salt ++ ":" ++ sha256_hexdigest (encode (P1 ++ salt)))) ->
  (SHA256.sha256 (encode (P2 ++ salt)) = SHA256.sha256 (encode (P1 ++ salt)) ->
   encode (P2 ++ salt) = encode (P1 ++ salt)) ->
  verify_user u P2 w = (Return false, w).
Proof.
  intros Hne Hsalt Hvalid Hr Hs Hfree.
  rewrite (verify_user_stores u P2 w _ Hr Hs (valid_utf8_salted _ _ Hvalid)).
  rewrite comparison_other_password; [reflexivity | exact Hsalt |].
  intros H. apply Hne. symmetry.
  apply (append_cancel_r _ _ salt), encode_inj, Hfree, hex_inj, H.
Qed.

(** ** Properties of the credential check *)

(** C1. Round trip: when the store maps [u] to the credential that
    [hash_password(P)] produced with a freshly generated salt, whatever
    the characters of [P], [verify_user(u, P)] returns true. *)
Theorem C1_round_trip (u P cred : string) (w0 w0' w : world) :
  hash_password P None w0 = (Return cred, w0') ->
  readable w ->
  stores w u (Text cred) ->
  verify_user u P w = (Return true, w).
Proof.
  intros Hc Hr Hs. apply hash_password_fresh_inv in Hc. subst cred.
  rewrite (verify_user_stores u P w _ Hr Hs (decodable_credential P w0)).
  now rewrite (comparison_same_password P _ (fresh_salt_no_colon w0)).
Qed.

Lemma C1_round_trip_witness :
  verify_user "alice" "pa:ss:"
    (world_with [("alice", Text (credential_of "pa:ss:" fresh_world))])
  = (Return true,
     world_with [("alice", Text (credential_of "pa:ss:" fresh_world))]).
Proof.
  apply (C1_round_trip "alice" "pa:ss:" (credential_of "pa:ss:" fresh_world)
           fresh_world (draw fresh_world 32)).
  - reflexivity.
  - split; reflexivity.
  - exists [("alice", Text (credential_of "pa:ss:" fresh_world))].
    split; reflexivity.
Defined.

(** C2. [hash_password(p, s)] is [s], a colon, and the 64 lowercase
    hexadecimal digits of SHA-256 of the bytes of [p] followed by the
    bytes of [s]; the result depends on [p] and [s] only, and the call
    changes nothing. *)
Theorem C2_hash_reference (p s : string) (w : world) :
  hash_password p (Some s) w
  = (Return (s ++ ":" ++ hex (SHA256.sha256 (encode p ++ encode s))), w)
  /\ all_chars is_lower_hex_digit (hex (SHA256.sha256 (encode p ++ encode s)))
     = true
  /\ String.length (hex (SHA256.sha256 (encode p ++ encode s))) = 64
  /\ forall w' : world,
       fst (hash_password p (Some s) w') = fst (hash_password p (Some s) w).
Proof.
  repeat split.
  - now rewrite hash_password_salted, encode_app.
  - apply hex_lower.
  - apply sha256_hexdigest_length.
Qed.

(** C3. Wrong password: when the credential under [u] was made by
    [hash_password(P1)] and [P2] differs from [P1], [verify_user(u, P2)]
    returns false, provided SHA-256 does not collide on the two inputs
    compared, [P1 + salt] and [P2 + salt]. *)
Theorem C3_wrong_password (u P1 P2 cred : string) (w0 w0' w : world) :
  P1 <> P2 ->
  hash_password P1 None w0 = (Return cred, w0') ->
  readable w ->
  stores w u (Text cred) ->
  (SHA256.sha256 (encode (P2 ++ fresh_salt w0))
   = SHA256.sha256 (encode (P1 ++ fresh_salt w0)) ->
   encode (P2 ++ fresh_salt w0) = encode (P1 ++ fresh_salt w0)) ->
  verify_user u P2 w = (Return false, w).
Proof.
  intros Hne Hc Hr Hs Hfree. apply hash_password_fresh_inv in Hc. subst cred.
  exact (other_password_rejected u P1 P2 (fresh_salt w0) w Hne
           (fresh_salt_no_colon w0) (fresh_salt_valid w0) Hr Hs Hfree).
Qed.

Lemma C3_wrong_password_witness :
  verify_user "alice" "Secret"
    (world_with [("alice", Text (credential_of "secret" fresh_world))])
  = (Return false,
     world_with [("alice", Text (credential_of "secret" fresh_world))]).
Proof.
  apply (C3_wrong_password "alice" "secret" "Secret"
           (credential_of "secret" fresh_world)
           fresh_world (draw fresh_world 32)).
  - discriminate.
  - reflexivity.
  - split; reflexivity.
  - exists [("alice", Text (credential_of "secret" fresh_world))].
    split; reflexivity.
  - intros H. vm_compute in H. discriminate H.
Defined.

(** C10. A salt supplied by the caller is not validated, and the stored
    credential is split at its first colon only: when the salt [s], a
    text, holds a colon, the credential [hash_password(P, s)] stored
    under [u] does not verify; when [s] holds none it does; a generated
    salt holds none. *)
Theorem C10_salt_with_colon (u P s cred : string) (w0 w0' w : world) :
  valid_utf8 (encode s) = true ->
  hash_password P (Some s) w0 = (Return cred, w0') ->
  readable w ->
  stores w u (Text cred) ->
  (str_contains colon s = true -> verify_user u P w = (Return false, w))
  /\ (str_contains colon s = false -> verify_user u P w = (Return true, w))
  /\ str_contains colon (fresh_salt w0) = false.
Proof.
  intros Hv Hc Hr Hs. apply hash_password_salted_inv in Hc. subst cred.
  rewrite (verify_user_stores u P w _ Hr Hs (valid_utf8_salted _ _ Hv)).
  repeat split.
  - intros Hc. now rewrite comparison_salt_with_colon.
  - intros Hc. now rewrite comparison_same_password.
  - apply fresh_salt_no_colon.
Qed.

Lemma C10_salt_with_colon_witness :
  verify_user "alice" "pw"
    (world_with
       [("alice",
         Text "a:b:334714578b51589a74c82ec9f7ad0c3f29853d00b6c74946b6c0c339bfa80556")])
  = (Return false,
     world_with
       [("alice",
         Text "a:b:334714578b51589a74c82ec9f7ad0c3f29853d00b6c74946b6c0c339bfa80556")]).
Proof.
  apply (C10_salt_with_colon "alice" "pw" "a:b"
           "a:b:334714578b51589a74c82ec9f7ad0c3f29853d00b6c74946b6c0c339bfa80556"
           fresh_world fresh_world).
  - reflexivity.
  - vm_compute. reflexivity.
  - split; reflexivity.
  - eexists. split; reflexivity.
  - reflexivity.
Defined.

(** C4. Legacy records: when the credential stored under [u] holds no
    colon, [verify_user(u, P)] returns true exactly when the lowercase
    hexadecimal SHA-256 digest of [P] alone is the stored string, and
    false otherwise, the stored bytes being text the driver can
    decode. *)
Theorem C4_legacy_fallback (u P s : string) (w : world) :
  readable w ->
  stores w u (Text s) ->
  str_contains colon s = false ->
  (sha256_hexdigest (encode P) = s -> verify_user u P w = (Return true, w))
  /\ (valid_utf8 (encode s) = true ->
      sha256_hexdigest (encode P) <> s ->
      verify_user u P w = (Return false, w))
  /\ (verify_user u P w = (Return true, w) ->
      hex (SHA256.sha256 (encode P)) = s).
Proof.
  intros Hr Hs Hc. destruct (valid_utf8 (encode s)) eqn:Hv.
  - rewrite (verify_user_stores u P w _ Hr Hs Hv). cbn [comparison].
    rewrite Hc. repeat split.
    + intros ->. now rewrite String.eqb_refl.
    + intros _ Hne. apply String.eqb_neq in Hne. now rewrite Hne.
    + intros [= H]. now apply String.eqb_eq in H.
  - rewrite (verify_user_undecodable u P s w Hr Hs Hv). repeat split.
    + intros <-. unfold sha256_hexdigest in Hv.
      now rewrite (valid_utf8_lower_hex _ (hex_lower _)) in Hv.
    + discriminate.
    + discriminate.
Qed.

Lemma C4_legacy_fallback_witness :
  verify_user "bob" "secret"
    (world_with
       [("bob",
         Text "2bb80d537b1da3e38bd30361aa855686bde0eacd7162fef6a25fe97bf527a25b")])
  = (Return true,
     world_with
       [("bob",
         Text "2bb80d537b1da3e38bd30361aa855686bde0eacd7162fef6a25fe97bf527a25b")])
  /\ verify_user "bob" "Secret"
       (world_with
          [("bob",
            Text "2bb80d537b1da3e38bd30361aa855686bde0eacd7162fef6a25fe97bf527a25b")])
     = (Return false,
        world_with
          [("bob",
            Text "2bb80d537b1da3e38bd30361aa855686bde0eacd7162fef6a25fe97bf527a25b")]).
Proof.
  split.
  - apply (C4_legacy_fallback "bob" "secret"
             "2bb80d537b1da3e38bd30361aa855686bde0eacd7162fef6a25fe97bf527a25b").
    + split; reflexivity.
    + eexists. split; reflexivity.
    + reflexivity.
    + vm_compute. reflexivity.
  - apply (C4_legacy_fallback "bob" "Secret"
             "2bb80d537b1da3e38bd30361aa855686bde0eacd7162fef6a25fe97bf527a25b").
    + split; reflexivity.
    + eexists. split; reflexivity.
    + reflexivity.
    + reflexivity.
    + intros H. vm_compute in H. discriminate H.
Defined.

(** C5. Unknown user: when the table holds no record for [u],
    [verify_user(u, P)] returns false, raises nothing and changes
    nothing; the caller gets the very value that the rejection of a
    wrong password for a known user gives. *)
Theorem C5_unknown_user (u P : string) (w : world) :
  readable w ->
  no_record w u ->
  verify_user u P w = (Return false, w)
  /\ forall (u2 P2 cred : string) (w2 : world),
       stores w2 u2 (Text cred) ->
       fst (verify_user u2 P2 w2) = Return false ->
       fst (verify_user u P w) = fst (verify_user u2 P2 w2).
Proof.
  intros Hr (t & Hd & Hn).
  assert (Hv : verify_user u P w = (Return false, w)).
  { rewrite (verify_user_readable u P w t Hr Hd), Hn. reflexivity. }
  split; [exact Hv|].
  intros u2 P2 cred w2 _ H2. now rewrite Hv, H2.
Qed.

Lemma C5_unknown_user_witness :
  verify_user "nonexistent" "anything"
    (world_with [("admin", Text (credential_of "admin123" fresh_world))])
  = (Return false,
     world_with [("admin", Text (credential_of "admin123" fresh_world))]).
Proof.
  apply (C5_unknown_user "nonexistent" "anything").
  - split; reflexivity.
  - eexists. split; reflexivity.
Defined.

(** ** Storage faults *)

Lemma verify_user_connect_fault (u p : string) (w : world) (e : exn) :
  connect_fault w = Some e -> verify_user u p w = (Raise e, w).
Proof.
  intros H. unfold verify_user, bind, connect_db, connect. now rewrite H.
Qed.

Lemma verify_user_execute_fault (u p : string) (w : world) (e : exn) :
  connect_fault w = None -> execute_fault w = Some e ->
  verify_user u p w = (Raise e, w).
Proof.
  intros Hc He. unfold verify_user, bind, connect_db, connect, execute.
  now rewrite Hc, He.
Qed.

Lemma verify_user_no_table (u p : string) (w : world) :
  readable w -> disk w = None ->
  verify_user u p w = (Raise no_such_table, w).
Proof.
  intros [Hc He] Hd. unfold verify_user, bind, connect_db, connect, execute.
  rewrite Hc, He. cbn [pending]. now rewrite Hd.
Qed.

Lemma create_users_table_connect_fault (w : world) (e : exn) :
  connect_fault w = Some e -> create_users_table w = (Raise e, w).
Proof.
  intros H. unfold create_users_table, bind, connect_db, connect.
  now rewrite H.
Qed.

Lemma create_users_table_execute_fault (w : world) (e : exn) :
  connect_fault w = None -> execute_fault w = Some e ->
  create_users_table w = (Raise e, w).
Proof.
  intros Hc He. unfold create_users_table, bind, connect_db, connect, execute.
  now rewrite Hc, He.
Qed.

Lemma create_users_table_commit_fault (w : world) (e : exn) :
  connect_fault w = None -> execute_fault w = None ->
  commit_fault w = Some e ->
  exists w', create_users_table w = (Raise e, w').
Proof.
  intros Hc He Hm.
  unfold create_users_table, bind, connect_db, connect, execute, commit.
  rewrite Hc, He. cbn [pending].
  destruct (disk w); cbn [fst set_disk commit_fault]; rewrite Hm;
    eexists; reflexivity.
Qed.

Lemma add_test_user_connect_fault (w : world) (e : exn) :
  connect_fault w = Some e -> add_test_user w = (Raise e, w).
Proof.
  intros H. unfold add_test_user, bind, connect_db, connect. now rewrite H.
Qed.

(** Past the connection, nothing that the insertion raises reaches the
    caller of [add_test_user]. *)
Lemma insert_or_pass_returns (conn : connection) (row : string * string)
      (w : world) :
  exists w', insert_or_pass conn row w = (Return tt, w')
             /\ connect_fault w' = connect_fault w
             /\ execute_fault w' = execute_fault w
             /\ commit_fault w' = commit_fault w
             /\ entropy w' = entropy w /\ drawn w' = drawn w.
Proof.
  unfold insert_or_pass, try_except, bind, execute, commit, ret.
  destruct (execute_fault w) eqn:He; [now eexists|].
  destruct (pending conn) as [t|]; [|now eexists].
  destruct (has_user t (fst row)); [now eexists|].
  cbn [fst]. destruct (commit_fault w) eqn:Hm; now eexists.
Qed.

Lemma add_test_user_returns (w : world) :
  connect_fault w = None -> fst (add_test_user w) = Return tt.
Proof.
  intros Hc. unfold add_test_user, bind, connect_db, connect, close, ret.
  rewrite Hc, hash_password_fresh.
  destruct (insert_or_pass_returns (Connection (disk w))
              ("admin", fresh_salt w ++ ":"
                 ++ sha256_hexdigest (encode ("admin123" ++ fresh_salt w)))
              (draw w 32)) as (w' & -> & _).
  reflexivity.
Qed.

(** ** The table under insertion *)

Lemma has_user_select (t : table) (u : string) :
  has_user t u = false -> select_password t u = [].
Proof.
  unfold has_user, select_password.
  induction t as [|r t IH]; simpl; [reflexivity|].
  destruct (String.eqb (fst r) u); [discriminate | exact IH].
Qed.

Lemma select_has_user (t : table) (u : string) (v : cell) :
  first_row (select_password t u) = Some v -> has_user t u = true.
Proof.
  intros H. destruct (has_user t u) eqn:Hu; [reflexivity|].
  now rewrite (has_user_select t u Hu) in H.
Qed.

Lemma has_user_not_in (t : table) (u : string) :
  has_user t u = false -> ~ In u (map fst t).
Proof.
  unfold has_user. induction t as [|r t IH]; simpl; [tauto|].
  destruct (String.eqb_spec (fst r) u) as [|Hne]; [discriminate|].
  intros H [Heq|Hin]; [contradiction | exact (IH H Hin)].
Qed.

Lemma select_password_exact (t : table) (u : string) (v : cell) :
  In v (select_password t u) <-> In (u, v) t.
Proof.
  unfold select_password. rewrite in_map_iff. split.
  - intros ([u' v'] & <- & Hin). apply filter_In in Hin as [Hin Heq].
    apply String.eqb_eq in Heq. simpl in Heq. now subst u'.
  - intros Hin. exists (u, v). split; [reflexivity|].
    apply filter_In. split; [exact Hin | apply String.eqb_refl].
Qed.

Lemma NoDup_snoc (A : Type) (l : list A) (x : A) :
  NoDup l -> ~ In x l -> NoDup (l ++ [x])%list.
Proof.
  induction 1 as [|y l Hy Hl IH]; simpl; intros Hx.
  - constructor; [tauto | constructor].
  - constructor.
    + rewrite in_app_iff. simpl. intros [H|[H|[]]]; [tauto|].
      apply Hx. now left.
    + apply IH. tauto.
Qed.

(** What [insert_or_pass] leaves on disk: the table as it was, or the
    connection's table with the new row appended, which asks for a
    username not yet there. *)
Lemma insert_or_pass_disk (conn : connection) (row : string * string)
      (w : world) :
  disk (snd (insert_or_pass conn row w)) = disk w
  \/ exists t, pending conn = Some t
               /\ has_user t (fst row) = false
               /\ disk (snd (insert_or_pass conn row w))
                  = Some (t ++ [(fst row, Text (snd row))])%list.
Proof.
  unfold insert_or_pass, try_except, bind, execute, commit, ret.
  destruct (execute_fault w) eqn:He; [now left|].
  destruct (pending conn) as [t|]; [|now left].
  destruct (has_user t (fst row)) eqn:Hu; [now left|].
  cbn [fst pending]. destruct (commit_fault w) eqn:Hm; [now left|].
  right. exists t. now repeat split.
Qed.

Lemma insert_or_pass_duplicate (conn : connection) (row : string * string)
      (w : world) (t : table) :
  pending conn = Some t -> has_user t (fst row) = true ->
  insert_or_pass conn row w = (Return tt, w).
Proof.
  intros Hp Hu.
  unfold insert_or_pass, try_except, bind, execute, ret.
  destruct (execute_fault w); [reflexivity|]. now rewrite Hp, Hu.
Qed.

Lemma insert_or_pass_new (conn : connection) (row : string * string)
      (w : world) (t : table) :
  execute_fault w = None -> commit_fault w = None ->
  pending conn = Some t -> has_user t (fst row) = false ->
  insert_or_pass conn row w
  = (Return tt, set_disk w (Some (t ++ [(fst row, Text (snd row))])%list)).
Proof.
  intros He Hm Hp Hu.
  unfold insert_or_pass, try_except, bind, execute, commit, ret.
  now rewrite He, Hp, Hu, Hm.
Qed.

Lemma add_test_user_unfold (w : world) :
  connect_fault w = None ->
  add_test_user w
  = (Return tt,
     snd (insert_or_pass (Connection (disk w))
            ("admin", credential_of "admin123" w) (draw w 32))).
Proof.
  intros Hc. unfold add_test_user, bind, connect_db, connect, close, ret.
  rewrite Hc, hash_password_fresh.
  unfold credential_of. rewrite hash_password_fresh. cbn [fst].
  destruct (insert_or_pass_returns (Connection (disk w))
              ("admin", fresh_salt w ++ ":"
                 ++ sha256_hexdigest (encode ("admin123" ++ fresh_salt w)))
              (draw w 32)) as (w' & -> & _).
  reflexivity.
Qed.

Lemma add_test_user_unique (w : world) :
  unique_usernames w -> unique_usernames (snd (add_test_user w)).
Proof.
  intros Hw. destruct (connect_fault w) as [e|] eqn:Hc.
  - now rewrite (add_test_user_connect_fault w e Hc).
  - rewrite (add_test_user_unfold w Hc). cbn [snd].
    destruct (insert_or_pass_disk (Connection (disk w))
                ("admin", credential_of "admin123" w) (draw w 32))
      as [H|(t & Hp & Hu & H)];
      intros t' Ht'; rewrite H in Ht'.
    + exact (Hw t' Ht').
    + injection Ht' as <-. rewrite map_app. apply NoDup_snoc.
      * exact (Hw t Hp).
      * exact (has_user_not_in t _ Hu).
Qed.

Lemma create_users_table_unique (w : world) :
  unique_usernames w -> unique_usernames (snd (create_users_table w)).
Proof.
  intros Hw.
  unfold create_users_table, bind, connect_db, connect, execute, commit,
    close, ret.
  destruct (connect_fault w); [exact Hw|].
  destruct (execute_fault w); [exact Hw|]. cbn [pending].
  destruct (disk w) as [t|] eqn:Hd; cbn [fst set_disk commit_fault pending].
  - destruct (commit_fault w); cbn [snd]; [exact Hw|].
    intros t' [= <-]. exact (Hw t Hd).
  - destruct (commit_fault w); cbn [snd]; intros t' [= <-]; constructor.
Qed.

Lemma create_users_table_run (w : world) :
  faultless w ->
  create_users_table w
  = (Return tt,
     set_disk w (Some match disk w with Some t => t | None => [] end)).
Proof.
  intros (Hc & He & Hm).
  unfold create_users_table, bind, connect_db, connect, execute, commit,
    close, ret.
  rewrite Hc, He. cbn [pending].
  destruct (disk w) as [t|] eqn:Hd; cbn [fst set_disk commit_fault pending];
    rewrite Hm; reflexivity.
Qed.

(** C6 as stated fails: [verify_user] has no handler, and a record
    whose [password] column holds a BLOB makes the membership test
    raise a [TypeError] that reaches the caller. *)
Lemma C6_blob_credential_raises :
  readable (world_with [("admin", Blob [x61; x3a; x62])])
  /\ stores (world_with [("admin", Blob [x61; x3a; x62])]) "admin"
       (Blob [x61; x3a; x62])
  /\ fst (verify_user "admin" "admin123"
            (world_with [("admin", Blob [x61; x3a; x62])]))
     = Raise (TypeError "a bytes-like object is required, not 'str'")
  /\ fst (verify_user "admin" "admin123"
            (world_with [("admin", Blob [x61; x3a; x62])]))
     <> Return false.
Proof.
  repeat split; try reflexivity.
  - eexists. split; reflexivity.
  - discriminate.
Qed.

(** C6, amended. [verify_user] absorbs nothing.  On a stored text that
    the driver can decode, the comparison path raises nothing and
    returns the boolean of its comparison: without colon, whether the
    digest of the password is the stored text; with a colon, whether
    the salt before the first colon, a colon and the digest of the
    password followed by that salt are the stored text (so that a
    malformed text is not accepted).  On a BLOB the [TypeError] of the
    membership test goes to the caller; on TEXT that is not UTF-8 the
    [sqlite3.OperationalError] of [fetchone] does. *)
Theorem C6_comparison_path (u P : string) (v : cell) (w : world) :
  readable w ->
  stores w u v ->
  match v with
  | Text s =>
      (valid_utf8 (encode s) = true ->
       str_contains colon s = false ->
       verify_user u P w
       = (Return (String.eqb (sha256_hexdigest (encode P)) s), w))
      /\ (valid_utf8 (encode s) = true ->
          str_contains colon s = true ->
          exists salt rest : string,
            s = salt ++ ":" ++ rest
            /\ str_contains colon salt = false
            /\ verify_user u P w
               = (Return
                    (String.eqb
                       (salt ++ ":"
                        ++ sha256_hexdigest (encode (P ++ salt))) s), w))
      /\ (valid_utf8 (encode s) = false ->
          exists msg : string,
            verify_user u P w = (Raise (OperationalError msg), w))
  | Blob _ =>
      verify_user u P w
      = (Raise (TypeError "a bytes-like object is required, not 'str'"), w)
  end.
Proof.
  intros Hr Hs. destruct v as [s|b].
  - split; [|split].
    + intros Hv Hc. rewrite (verify_user_stores u P w _ Hr Hs Hv).
      cbn [comparison]. now rewrite Hc.
    + intros Hv Hc. rewrite (verify_user_stores u P w _ Hr Hs Hv).
      cbn [comparison]. rewrite Hc.
      destruct (str_partition_complete colon s Hc) as (salt & rest & Hp).
      rewrite Hp. exists salt, rest.
      destruct (str_partition_sound colon s salt rest Hp) as [-> Hsalt].
      now repeat split.
    + intros Hv. eexists.
      exact (verify_user_undecodable u P s w Hr Hs Hv).
  - now rewrite (verify_user_stores u P w _ Hr Hs eq_refl).
Qed.

Lemma C6_comparison_path_witness :
  (exists salt rest : string,
     "zz:zz" = salt ++ ":" ++ rest
     /\ str_contains colon salt = false
     /\ verify_user "admin" "admin123" (world_with [("admin", Text "zz:zz")])
        = (Return
             (String.eqb
                (salt ++ ":"
                 ++ sha256_hexdigest (encode ("admin123" ++ salt))) "zz:zz"),
           world_with [("admin", Text "zz:zz")]))
  /\ verify_user "admin" "admin123" (world_with [("admin", Text "zzzz")])
     = (Return false, world_with [("admin", Text "zzzz")])
  /\ (exists msg : string,
        verify_user "admin" "admin123" (world_with [("admin", Text garbled)])
        = (Raise (OperationalError msg),
           world_with [("admin", Text garbled)]))
  /\ verify_user "admin" "admin123" (world_with [("admin", Blob [x61])])
     = (Raise (TypeError "a bytes-like object is required, not 'str'"),
        world_with [("admin", Blob [x61])]).
Proof.
  split; [|split; [|split]].
  - destruct (C6_comparison_path "admin" "admin123" (Text "zz:zz")
                (world_with [("admin", Text "zz:zz")])) as (_ & H & _).
    + split; reflexivity.
    + eexists. split; reflexivity.
    + exact (H eq_refl eq_refl).
  - destruct (C6_comparison_path "admin" "admin123" (Text "zzzz")
                (world_with [("admin", Text "zzzz")])) as (H & _).
    + split; reflexivity.
    + eexists. split; reflexivity.
    + rewrite (H eq_refl eq_refl). vm_compute. reflexivity.
  - destruct (C6_comparison_path "admin" "admin123" (Text garbled)
                (world_with [("admin", Text garbled)])) as (_ & _ & H).
    + split; reflexivity.
    + eexists. split; reflexivity.
    + exact (H eq_refl).
  - apply (C6_comparison_path "admin" "admin123" (Blob [x61])).
    + split; reflexivity.
    + eexists. split; reflexivity.
Defined.

(** Whatever the storage layer raises while the row is inserted, the
    bare [except] of [add_test_user] takes it. *)
Lemma add_test_user_masks_execute_fault (w : world) (e : exn) :
  connect_fault w = None -> execute_fault w = Some e ->
  execute (Connection (disk w)) (InsertUser "admin" (credential_of "admin123" w))
    (draw w 32) = (Raise e, draw w 32)
  /\ add_test_user w = (Return tt, draw w 32).
Proof.
  intros Hc He. split.
  - unfold execute. cbn [execute_fault draw]. now rewrite He.
  - rewrite (add_test_user_unfold w Hc).
    unfold insert_or_pass, try_except, bind, execute.
    cbn [execute_fault draw fst snd]. now rewrite He.
Qed.

(** C7 fails on the insertion: with the table missing, or with the
    database locked, the INSERT raises [sqlite3.OperationalError] and
    [add_test_user] returns as if nothing had happened, the row not
    being stored. *)
Theorem C7_insert_error_masked :
  (fst (execute (Connection (disk fresh_world))
          (InsertUser "admin" (credential_of "admin123" fresh_world))
          (draw fresh_world 32))
   = Raise (OperationalError "no such table: users")
   /\ add_test_user fresh_world = (Return tt, draw fresh_world 32)
   /\ disk (draw fresh_world 32) = None)
  /\ (fst (execute (Connection (disk (locked_world [])))
             (InsertUser "admin" (credential_of "admin123" (locked_world [])))
             (draw (locked_world []) 32))
      = Raise (OperationalError "database is locked")
      /\ add_test_user (locked_world [])
         = (Return tt, draw (locked_world []) 32)
      /\ disk (draw (locked_world []) 32) = Some []).
Proof.
  split.
  - split; [reflexivity | split; [|reflexivity]].
    rewrite (add_test_user_unfold fresh_world eq_refl). reflexivity.
  - destruct (add_test_user_masks_execute_fault (locked_world [])
                (OperationalError "database is locked") eq_refl eq_refl)
      as [H1 H2].
    rewrite H1, H2. now repeat split.
Qed.

(** C8. A second insertion under a username already present raises
    nothing and leaves the first credential in place; this holds for
    the row [add_test_user] inserts and for any other row given to its
    [try] block, and every run keeps one record per username. *)
Theorem C8_duplicate_insert (w : world) (credA : cell) :
  connect_fault w = None ->
  stores w "admin" credA ->
  add_test_user w = (Return tt, draw w 32)
  /\ disk (draw w 32) = disk w
  /\ stores (snd (add_test_user w)) "admin" credA
  /\ (forall (u credB : string) (v : cell) (w1 : world) (conn : connection),
        stores w1 u v -> pending conn = disk w1 ->
        insert_or_pass conn (u, credB) w1 = (Return tt, w1))
  /\ (forall w1 : world,
        unique_usernames w1 -> unique_usernames (snd (add_test_user w1))).
Proof.
  intros Hc (t & Hd & Hf).
  assert (Hrun : add_test_user w = (Return tt, draw w 32)).
  { rewrite (add_test_user_unfold w Hc).
    rewrite (insert_or_pass_duplicate _ _ _ t); [reflexivity | exact Hd |].
    exact (select_has_user t "admin" credA Hf). }
  repeat split.
  - exact Hrun.
  - rewrite Hrun. exists t. now split.
  - intros u credB v w1 conn (t1 & Hd1 & Hf1) Hp.
    apply (insert_or_pass_duplicate _ _ _ t1); [congruence|].
    exact (select_has_user t1 u v Hf1).
  - exact add_test_user_unique.
Qed.

Lemma C8_duplicate_insert_witness :
  add_test_user (world_with [("admin", Text "credA")])
  = (Return tt, draw (world_with [("admin", Text "credA")]) 32)
  /\ stores (snd (add_test_user (world_with [("admin", Text "credA")])))
       "admin" (Text "credA").
Proof.
  destruct (C8_duplicate_insert (world_with [("admin", Text "credA")])
              (Text "credA")) as (H1 & _ & H3 & _).
  - reflexivity.
  - eexists. split; reflexivity.
  - split; [exact H1 | exact H3].
Defined.

(** ** The first run: schema, then the demonstration account *)

Lemma select_password_app (t1 t2 : table) (u : string) :
  select_password (t1 ++ t2)%list u
  = (select_password t1 u ++ select_password t2 u)%list.
Proof. unfold select_password. now rewrite filter_app, map_app. Qed.

(** The world after [create_users_table()] and [add_test_user()] when
    no "admin" row was there before. *)
Lemma seeded_world (w0 : world) (t0 : table) :
  faultless w0 ->
  t0 = match disk w0 with Some t => t | None => [] end ->
  has_user t0 "admin" = false ->
  snd (add_test_user (snd (create_users_table w0)))
  = set_disk (draw w0 32)
      (Some (t0 ++ [("admin", Text (credential_of "admin123" w0))])%list).
Proof.
  intros Hf Ht Hu. rewrite (create_users_table_run w0 Hf), <- Ht.
  destruct Hf as (Hc & He & Hm). cbn [snd].
  rewrite add_test_user_unfold by exact Hc. cbn [snd].
  rewrite (insert_or_pass_new _ _ _ t0); try assumption; reflexivity.
Qed.

(** C9. The lookup matches the username byte for byte.  After the
    first run has seeded "admin" with [hash_password("admin123")],
    [verify_user("admin", "admin123")] is true,
    [verify_user("admin", "wrong")] is false (SHA-256 not colliding on
    the two salted passwords) and [verify_user("Admin", "admin123")] is
    false. *)
Theorem C9_seeded_admin (w0 : world) :
  faultless w0 ->
  (forall t, disk w0 = Some t ->
             has_user t "admin" = false /\ has_user t "Admin" = false) ->
  (SHA256.sha256 (encode ("wrong" ++ fresh_salt w0))
   = SHA256.sha256 (encode ("admin123" ++ fresh_salt w0)) ->
   encode ("wrong" ++ fresh_salt w0) = encode ("admin123" ++ fresh_salt w0)) ->
  let w := snd (add_test_user (snd (create_users_table w0))) in
  verify_user "admin" "admin123" w = (Return true, w)
  /\ verify_user "admin" "wrong" w = (Return false, w)
  /\ verify_user "Admin" "admin123" w = (Return false, w)
  /\ (forall (t : table) (u : string) (v : cell),
        In v (select_password t u) <-> In (u, v) t).
Proof.
  intros Hf Hfresh Hfree w.
  set (t0 := match disk w0 with Some t => t | None => [] end).
  assert (Hu : has_user t0 "admin" = false /\ has_user t0 "Admin" = false).
  { subst t0. destruct (disk w0) as [t|]; [now apply Hfresh | now split]. }
  destruct Hu as [Hu HU].
  assert (Hw : w = set_disk (draw w0 32)
                     (Some (t0 ++ [("admin",
                                    Text (credential_of "admin123" w0))])%list))
    by (apply seeded_world; [exact Hf | reflexivity | exact Hu]).
  assert (Hr : readable w).
  { rewrite Hw. destruct Hf as (Hc & He & _). split; assumption. }
  assert (Hcred : credential_of "admin123" w0
                  = fresh_salt w0 ++ ":"
                    ++ sha256_hexdigest (encode ("admin123" ++ fresh_salt w0)))
    by (unfold credential_of; now rewrite hash_password_fresh).
  assert (Hs : stores w "admin" (Text (credential_of "admin123" w0))).
  { rewrite Hw. eexists. split; [reflexivity|].
    rewrite select_password_app, (has_user_select t0 "admin" Hu).
    reflexivity. }
  rewrite Hcred in Hs.
  repeat split.
  - rewrite (verify_user_stores _ _ _ _ Hr Hs
               (decodable_credential "admin123" w0)).
    now rewrite (comparison_same_password _ _ (fresh_salt_no_colon w0)).
  - apply (other_password_rejected "admin" "admin123" "wrong" (fresh_salt w0));
      [discriminate | apply fresh_salt_no_colon | apply fresh_salt_valid
      | assumption..].
  - rewrite (verify_user_readable _ _ w _ Hr (f_equal disk Hw)).
    now rewrite select_password_app, (has_user_select t0 "Admin" HU).
  - apply select_password_exact.
  - apply select_password_exact.
Qed.

Lemma C9_seeded_admin_witness :
  verify_user "admin" "admin123"
    (snd (add_test_user (snd (create_users_table fresh_world))))
  = (Return true, snd (add_test_user (snd (create_users_table fresh_world))))
  /\ verify_user "admin" "wrong"
       (snd (add_test_user (snd (create_users_table fresh_world))))
     = (Return false,
        snd (add_test_user (snd (create_users_table fresh_world))))
  /\ verify_user "Admin" "admin123"
       (snd (add_test_user (snd (create_users_table fresh_world))))
     = (Return false,
        snd (add_test_user (snd (create_users_table fresh_world)))).
Proof.
  destruct (C9_seeded_admin fresh_world) as (H1 & H2 & H3 & _).
  - repeat split.
  - discriminate.
  - intros H. vm_compute in H. discriminate H.
  - repeat split; assumption.
Defined.

(** ** More on the store and the authenticator *)

Lemma verify_user_world (u p : string) (w : world) :
  snd (verify_user u p w) = w.
Proof.
  unfold verify_user, bind, connect_db, connect, execute, fetchone, close,
    ret, raise.
  destruct (connect_fault w); [reflexivity|].
  destruct (execute_fault w); [reflexivity|]. cbn [pending].
  destruct (disk w) as [t|]; [|reflexivity]. cbn [fst snd].
  destruct (first_row (select_password t u)) as [[s|b]|];
    cbn [decode_row]; try reflexivity.
  destruct (valid_utf8 (encode s)); [|reflexivity].
  destruct (str_contains colon s); [|reflexivity].
  unfold str_split1. destruct (str_partition colon s) as [[l r]|]; reflexivity.
Qed.

(** X1. [verify_user] only reads: whatever the table holds, whatever
    fails, and whether it returns or raises, the database and the
    entropy are after the call what they were before. *)
Theorem verify_user_read_only (u p : string) (w : world) :
  snd (verify_user u p w) = w.
Proof. apply verify_user_world. Qed.

Lemma create_users_table_disk (w : world) :
  disk (snd (create_users_table w)) = disk w
  \/ disk w = None /\ disk (snd (create_users_table w)) = Some [].
Proof.
  unfold create_users_table, bind, connect_db, connect, execute, commit,
    close, ret.
  destruct (connect_fault w); [now left|].
  destruct (execute_fault w); [now left|]. cbn [pending].
  destruct (disk w) as [t|] eqn:Hd; cbn [fst set_disk commit_fault pending].
  - left. destruct (commit_fault w); cbn [snd]; [exact Hd | reflexivity].
  - right. split; [reflexivity|]. destruct (commit_fault w); reflexivity.
Qed.

Lemma create_users_table_returns (w : world) :
  fst (create_users_table w) = Return tt ->
  disk (snd (create_users_table w)) <> None.
Proof.
  unfold create_users_table, bind, connect_db, connect, execute, commit,
    close, ret.
  destruct (connect_fault w); [discriminate|].
  destruct (execute_fault w); [discriminate|]. cbn [pending].
  destruct (disk w) as [t|] eqn:Hd; cbn [fst set_disk commit_fault pending];
    destruct (commit_fault w); cbn [fst snd]; discriminate.
Qed.

(** X2. [create_users_table] never touches an existing table: every
    row is kept, in every world.  When it returns, the table exists;
    and a second call leaves the database as the first one left it. *)
Theorem create_users_table_if_not_exists (w : world) :
  (forall t, disk w = Some t -> disk (snd (create_users_table w)) = Some t)
  /\ (fst (create_users_table w) = Return tt ->
      exists t, disk (snd (create_users_table w)) = Some t)
  /\ disk (snd (create_users_table (snd (create_users_table w))))
     = disk (snd (create_users_table w)).
Proof.
  repeat split.
  - intros t Hd. destruct (create_users_table_disk w) as [H|[H _]];
      congruence.
  - intros Hr. apply create_users_table_returns in Hr.
    destruct (disk (snd (create_users_table w))) as [t|];
      [now exists t | contradiction].
  - destruct w as [d cf ef mf en dr].
    destruct cf, ef, mf, d; reflexivity.
Qed.

Lemma select_password_snoc_other (t : table) (u u' : string) (v : cell) :
  first_row (select_password (t ++ [(u', v)])%list u)
  = match first_row (select_password t u) with
    | Some x => Some x
    | None => if String.eqb u' u then Some v else None
    end.
Proof.
  rewrite select_password_app.
  destruct (select_password t u) as [|x l]; [|reflexivity].
  unfold select_password. simpl. now destruct (String.eqb u' u).
Qed.

(** X3. [add_test_user] never removes or replaces a record: what the
    lookup of any username gave before, it gives afterwards, in every
    world, with or without faults. *)
Theorem add_test_user_keeps_records (u : string) (v : cell) (w : world) :
  stores w u v -> stores (snd (add_test_user w)) u v.
Proof.
  intros (t & Hd & Hf). destruct (connect_fault w) as [e|] eqn:Hc.
  - rewrite (add_test_user_connect_fault w e Hc). now exists t.
  - rewrite (add_test_user_unfold w Hc). cbn [snd].
    destruct (insert_or_pass_disk (Connection (disk w))
                ("admin", credential_of "admin123" w) (draw w 32))
      as [H|(t' & Hp & _ & H)].
    + exists t. split; [now rewrite H | exact Hf].
    + cbn [pending] in Hp. rewrite Hd in Hp. injection Hp as <-.
      eexists. split; [exact H|].
      rewrite select_password_snoc_other. now rewrite Hf.
Qed.

Lemma add_test_user_keeps_records_witness :
  stores (snd (add_test_user (world_with [("bob", Text "legacy")])))
    "bob" (Text "legacy").
Proof.
  apply (add_test_user_keeps_records "bob" (Text "legacy")
           (world_with [("bob", Text "legacy")])).
  eexists. split; reflexivity.
Defined.

(** X4. The credential [hash_password(p)] makes without a salt has the
    stored format: 64 lowercase hexadecimal digits, a colon, 64
    lowercase hexadecimal digits, 129 characters in all; splitting it
    at the first colon gives back the salt and the digest; and the call
    consumes exactly 32 bytes of entropy. *)
Theorem hash_password_fresh_format (p : string) (w : world) :
  exists salt digest : string,
    hash_password p None w = (Return (salt ++ ":" ++ digest), draw w 32)
    /\ String.length salt = 64
    /\ String.length digest = 64
    /\ all_chars is_lower_hex_digit salt = true
    /\ all_chars is_lower_hex_digit digest = true
    /\ String.length (salt ++ ":" ++ digest) = 129
    /\ str_split1 colon (salt ++ ":" ++ digest) = [salt; digest]
    /\ digest = hex (SHA256.sha256 (encode p ++ encode salt)).
Proof.
  exists (fresh_salt w), (sha256_hexdigest (encode (p ++ fresh_salt w))).
  assert (Hl : String.length (fresh_salt w) = 64).
  { unfold fresh_salt.
    now rewrite hex_length, List.length_map, List.length_seq. }
  split; [apply hash_password_fresh|].
  split; [exact Hl|].
  split; [apply sha256_hexdigest_length|].
  split; [apply hex_lower|].
  split; [apply hex_lower|].
  split; [|split].
  - rewrite length_append, Hl. cbn [append String.length].
    now rewrite sha256_hexdigest_length.
  - unfold str_split1.
    change (fresh_salt w ++ ":" ++ ?h) with (fresh_salt w ++ String colon h).
    now rewrite (str_partition_first colon _ _ (fresh_salt_no_colon w)).
  - now rewrite encode_app.
Qed.

(** X5. Salting: when the 32 bytes the OS hands out differ between two
    calls of [hash_password] without salt, the two credentials differ,
    even for one and the same password. *)
Theorem distinct_entropy_distinct_credentials
        (p q c1 c2 : string) (w1 w1' w2 w2' : world) :
  hash_password p None w1 = (Return c1, w1') ->
  hash_password q None w2 = (Return c2, w2') ->
  map (entropy w1) (seq (drawn w1) 32) <> map (entropy w2) (seq (drawn w2) 32) ->
  c1 <> c2.
Proof.
  intros H1 H2 Hne Heq.
  apply hash_password_fresh_inv in H1, H2. subst c1 c2.
  apply (f_equal (str_partition colon)) in Heq.
  change (fresh_salt ?w ++ ":" ++ ?h) with (fresh_salt w ++ String colon h)
    in Heq.
  rewrite !str_partition_first in Heq by apply fresh_salt_no_colon.
  assert (Hs : fresh_salt w1 = fresh_salt w2) by congruence.
  apply Hne, hex_inj, Hs.
Qed.

Lemma distinct_entropy_distinct_credentials_witness :
  credential_of "admin123" fresh_world
  <> credential_of "admin123" (draw fresh_world 32).
Proof.
  apply (distinct_entropy_distinct_credentials "admin123" "admin123" _ _
           fresh_world (draw fresh_world 32)
           (draw fresh_world 32) (draw (draw fresh_world 32) 32)).
  - reflexivity.
  - reflexivity.
  - vm_compute. discriminate.
Defined.

(** ** The first run as a whole *)

Lemma credential_of_set_disk (p : string) (w : world) (d : option table) :
  credential_of p (set_disk w d) = credential_of p w.
Proof. unfold credential_of. now rewrite !hash_password_fresh. Qed.

Lemma main_init_run (w : world) (t0 : table) :
  faultless w ->
  t0 = match disk w with Some t => t | None => [] end ->
  main_init w
  = (Return tt,
     set_disk (draw w 32)
       (Some (if has_user t0 "admin" then t0
              else (t0 ++ [("admin", Text (credential_of "admin123" w))])%list))).
Proof.
  intros Hf Ht. unfold main_init, bind.
  rewrite (create_users_table_run w Hf), <- Ht.
  destruct Hf as (Hc & He & Hm).
  rewrite add_test_user_unfold by exact Hc.
  rewrite credential_of_set_disk.
  destruct (has_user t0 "admin") eqn:Hu.
  - now rewrite (insert_or_pass_duplicate _ _ _ t0).
  - now rewrite (insert_or_pass_new _ _ _ t0).
Qed.

Lemma has_user_snoc (t : table) (u : string) (v : cell) :
  has_user (t ++ [(u, v)])%list u = true.
Proof.
  unfold has_user. rewrite existsb_app. simpl.
  now rewrite String.eqb_refl, orb_true_r.
Qed.

Lemma has_user_fetch (t : table) (u : string) :
  has_user t u = true -> exists v, first_row (select_password t u) = Some v.
Proof.
  unfold has_user, select_password.
  induction t as [|r t IH]; simpl; [discriminate|].
  destruct (String.eqb (fst r) u); [now eexists | exact IH].
Qed.

(** X6. The start-up of [main] in a world without faults: it returns,
    "admin" has a record afterwards, every record that was there is
    still there, and running it again leaves the table exactly as the
    first run left it (the stored credential is not salted afresh). *)
Theorem main_init_idempotent (w : world) :
  faultless w ->
  fst (main_init w) = Return tt
  /\ (exists v, stores (snd (main_init w)) "admin" v)
  /\ (forall (u : string) (v : cell),
        stores w u v -> stores (snd (main_init w)) u v)
  /\ disk (snd (main_init (snd (main_init w)))) = disk (snd (main_init w)).
Proof.
  intros Hf.
  set (t0 := match disk w with Some t => t | None => [] end).
  set (t1 := if has_user t0 "admin" then t0
             else (t0 ++ [("admin", Text (credential_of "admin123" w))])%list).
  assert (H1 : main_init w = (Return tt, set_disk (draw w 32) (Some t1)))
    by (apply main_init_run; [exact Hf | reflexivity]).
  assert (Hadmin : has_user t1 "admin" = true).
  { subst t1. destruct (has_user t0 "admin") eqn:Hu;
      [exact Hu | apply has_user_snoc]. }
  rewrite H1. cbn [fst snd]. repeat split.
  - destruct (has_user_fetch t1 "admin" Hadmin) as [v Hv].
    exists v, t1. now split.
  - intros u v (t & Hd & Hv). exists t1. split; [reflexivity|].
    subst t1 t0. rewrite Hd.
    destruct (has_user t "admin"); [exact Hv|].
    rewrite select_password_snoc_other. now rewrite Hv.
  - rewrite (main_init_run _ t1);
      [| destruct Hf as (Hc & He & Hm); now repeat split | reflexivity].
    cbn [snd disk set_disk]. now rewrite Hadmin.
Qed.

Lemma main_init_idempotent_witness :
  disk (snd (main_init (snd (main_init fresh_world))))
  = disk (snd (main_init fresh_world))
  /\ exists v, stores (snd (main_init fresh_world)) "admin" v.
Proof.
  destruct (main_init_idempotent fresh_world) as (_ & H2 & _ & H4).
  - repeat split.
  - split; [exact H4 | exact H2].
Defined.

(** X7. What [verify_user] accepts: it returns true only when the
    stored value is text and is either the bare digest of the password
    (a record without colon) or [salt:digest] with the digest of the
    password followed by that salt, the salt being what precedes the
    first colon.  A BLOB, a digest in upper case, a digest cut short
    are never accepted. *)
Theorem verify_user_accepts_only (u P : string) (v : cell) (w : world) :
  stores w u v ->
  fst (verify_user u P w) = Return true ->
  exists s : string,
    v = Text s
    /\ (str_contains colon s = false /\ s = hex (SHA256.sha256 (encode P))
        \/ exists salt : string,
             str_contains colon salt = false
             /\ s = salt ++ ":"
                    ++ hex (SHA256.sha256 (encode P ++ encode salt))).
Proof.
  intros Hs Hv.
  assert (Hr : readable w).
  { destruct (connect_fault w) as [e|] eqn:Hc;
      [now rewrite (verify_user_connect_fault u P w e Hc) in Hv|].
    destruct (execute_fault w) as [e|] eqn:He;
      [now rewrite (verify_user_execute_fault u P w e Hc He) in Hv|].
    now split. }
  assert (Hd : decodable v = true).
  { destruct v as [s|b]; [|reflexivity]. cbn [decodable].
    destruct (valid_utf8 (encode s)) eqn:Hd; [reflexivity|].
    now rewrite (verify_user_undecodable u P s w Hr Hs Hd) in Hv. }
  rewrite (verify_user_stores u P w v Hr Hs Hd) in Hv. cbn [fst] in Hv.
  destruct v as [s|b]; [|discriminate]. exists s. split; [reflexivity|].
  cbn [comparison] in Hv. destruct (str_contains colon s) eqn:Hc.
  - right. destruct (str_partition colon s) as [[salt r]|] eqn:Hp;
      [|discriminate].
    destruct (str_partition_sound colon s salt r Hp) as [_ Hsalt].
    exists salt. split; [exact Hsalt|].
    injection Hv as Hv. apply String.eqb_eq in Hv.
    now rewrite <- encode_app.
  - left. split; [reflexivity|].
    injection Hv as Hv. apply String.eqb_eq in Hv. now symmetry.
Qed.

Lemma verify_user_accepts_only_witness :
  exists s : string,
    Text "2bb80d537b1da3e38bd30361aa855686bde0eacd7162fef6a25fe97bf527a25b"
    = Text s
    /\ (str_contains colon s = false
        /\ s = hex (SHA256.sha256 (encode "secret"))
        \/ exists salt : string,
             str_contains colon salt = false
             /\ s = salt ++ ":"
                    ++ hex (SHA256.sha256 (encode "secret" ++ encode salt))).
Proof.
  apply (verify_user_accepts_only "bob" "secret" _
           (world_with
              [("bob",
                Text "2bb80d537b1da3e38bd30361aa855686bde0eacd7162fef6a25fe97bf527a25b")])).
  - eexists. split; reflexivity.
  - vm_compute. reflexivity.
Defined.

(** ** Storage failures on the paths without handler *)

(** X8. In [verify_user] nothing stands between the storage layer and
    the caller: a failure to open the file, a failure of the SELECT, or
    a missing table reaches the caller as the exception it is, no
    boolean is returned, and nothing is changed. *)
Theorem verify_user_storage_error (u p : string) (w : world) (e : exn) :
  connect_fault w = Some e
  \/ (connect_fault w = None /\ execute_fault w = Some e)
  \/ (readable w /\ disk w = None /\ e = no_such_table) ->
  verify_user u p w = (Raise e, w).
Proof.
  intros [Hc|[[Hc He]|(Hr & Hd & ->)]].
  - exact (verify_user_connect_fault u p w e Hc).
  - exact (verify_user_execute_fault u p w e Hc He).
  - exact (verify_user_no_table u p w Hr Hd).
Qed.

Lemma verify_user_storage_error_witness :
  verify_user "admin" "admin123" (locked_world [("admin", Text "x:y")])
  = (Raise (OperationalError "database is locked"),
     locked_world [("admin", Text "x:y")])
  /\ verify_user "admin" "admin123" fresh_world
     = (Raise (OperationalError "no such table: users"), fresh_world).
Proof.
  split.
  - apply verify_user_storage_error. right. left. split; reflexivity.
  - apply verify_user_storage_error. right. right. repeat split.
Defined.

(** X9. [create_users_table] has no handler either: whichever of the
    three steps fails (opening the file, the CREATE TABLE, the commit),
    the caller gets that exception. *)
Theorem create_users_table_storage_error (w : world) (e : exn) :
  connect_fault w = Some e
  \/ (connect_fault w = None /\ execute_fault w = Some e)
  \/ (connect_fault w = None /\ execute_fault w = None
      /\ commit_fault w = Some e) ->
  fst (create_users_table w) = Raise e.
Proof.
  intros [Hc|[[Hc He]|(Hc & He & Hm)]].
  - now rewrite (create_users_table_connect_fault w e Hc).
  - now rewrite (create_users_table_execute_fault w e Hc He).
  - destruct (create_users_table_commit_fault w e Hc He Hm) as [w' ->].
    reflexivity.
Qed.

Lemma create_users_table_storage_error_witness :
  fst (create_users_table (locked_world []))
  = Raise (OperationalError "database is locked").
Proof.
  apply create_users_table_storage_error. right. left. split; reflexivity.
Defined.

(** ** The login handler *)

Lemma login_missing (ue pe : string) (w : world) :
  fields_missing ue pe -> login ue pe w = (Return missing_fields, w).
Proof.
  unfold login, fields_missing. intros Hm.
  destruct (String.eqb_spec (py_strip ue) "Email or phone number") as [Hu|Hu];
    [reflexivity|].
  destruct (String.eqb_spec pe "Password") as [Hp|Hp];
    [cbn [str_is_empty]; now rewrite orb_true_r|].
  destruct Hm as [H|[H|[H|H]]]; try contradiction.
  - now rewrite H.
  - subst pe. cbn [str_is_empty]. now rewrite orb_true_r.
Qed.

Lemma login_present (ue pe : string) (w : world) :
  ~ fields_missing ue pe ->
  login ue pe w
  = (ok <- verify_user (py_strip ue) pe ;;
     if ok then ret [RootDestroy; OnSuccess (py_strip ue)]
     else ret invalid_credentials) w.
Proof.
  unfold login, fields_missing. intros Hm.
  destruct (String.eqb_spec (py_strip ue) "Email or phone number") as [Hu|Hu];
    [tauto|].
  destruct (String.eqb_spec pe "Password") as [Hp|Hp]; [tauto|].
  destruct (py_strip ue) as [|a s]; [tauto|].
  destruct pe as [|b pe']; [tauto|]. reflexivity.
Qed.

Lemma fields_missing_dec (ue pe : string) :
  fields_missing ue pe \/ ~ fields_missing ue pe.
Proof.
  unfold fields_missing.
  destruct (string_dec (py_strip ue) "") as [H1|H1]; [tauto|].
  destruct (string_dec (py_strip ue) "Email or phone number") as [H2|H2];
    [tauto|].
  destruct (string_dec pe "") as [H3|H3]; [tauto|].
  destruct (string_dec pe "Password") as [H4|H4]; tauto.
Qed.

(** X10. The guard of [login]: the message asking for both fields is
    the outcome exactly when the trimmed username is empty or is the
    placeholder of the entry, or the password is empty or is the
    placeholder "Password"; the store is then not consulted at all,
    not even a broken one.  An account whose password is the word
    "Password" cannot log in through the window. *)
Theorem login_missing_fields (ue pe : string) (w : world) :
  login ue pe w = (Return missing_fields, w) <-> fields_missing ue pe.
Proof.
  split; [|apply login_missing].
  intros Hl. destruct (fields_missing_dec ue pe) as [Hm|Hm]; [exact Hm|].
  rewrite (login_present ue pe w Hm) in Hl. unfold bind, ret in Hl.
  destruct (verify_user (py_strip ue) pe w) as [[[|]|e] w']; discriminate.
Qed.

(** X11. Every outcome of [login] that is not an exception: the store
    and the entropy are untouched, and the calls on the window are one
    of three lists.  Success hands the trimmed username to the callback
    and happens only when [verify_user] accepted the trimmed username
    with the password as typed; every rejection by [verify_user],
    unknown user or wrong password alike, gives the same message and
    the same reset of the password entry. *)
Theorem login_outcomes (ue pe : string) (w w' : world)
        (events : list ui_event) :
  login ue pe w = (Return events, w') ->
  w' = w
  /\ (events = missing_fields /\ fields_missing ue pe
      \/ events = invalid_credentials
         /\ verify_user (py_strip ue) pe w = (Return false, w)
      \/ events = [RootDestroy; OnSuccess (py_strip ue)]
         /\ verify_user (py_strip ue) pe w = (Return true, w)).
Proof.
  intros Hl. destruct (fields_missing_dec ue pe) as [Hm|Hm].
  - rewrite (login_missing ue pe w Hm) in Hl. injection Hl as <- <-.
    split; [reflexivity | now left].
  - rewrite (login_present ue pe w Hm) in Hl. unfold bind, ret in Hl.
    pose proof (verify_user_world (py_strip ue) pe w) as Hw.
    destruct (verify_user (py_strip ue) pe w) as [[[|]|e] w1];
      cbn [snd] in Hw; subst w1; [| |discriminate];
      injection Hl as <- <-; split; try reflexivity; tauto.
Qed.

Lemma login_outcomes_witness :
  world_with [("admin", Text "x:y")] = world_with [("admin", Text "x:y")]
  /\ (invalid_credentials = missing_fields /\ fields_missing "nobody" "guess"
      \/ invalid_credentials = invalid_credentials
         /\ verify_user (py_strip "nobody") "guess"
              (world_with [("admin", Text "x:y")])
            = (Return false, world_with [("admin", Text "x:y")])
      \/ invalid_credentials = [RootDestroy; OnSuccess (py_strip "nobody")]
         /\ verify_user (py_strip "nobody") "guess"
              (world_with [("admin", Text "x:y")])
            = (Return true, world_with [("admin", Text "x:y")])).
Proof.
  apply (login_outcomes "nobody" "guess").
  reflexivity.
Defined.

(** X12. [login] has no handler: when both fields are filled in and
    [verify_user] raises (the database cannot be read, the stored
    value is not text), the exception leaves [login] and no call is
    made on the window, no message box included. *)
Theorem login_raises (ue pe : string) (w : world) (e : exn) :
  ~ fields_missing ue pe ->
  fst (verify_user (py_strip ue) pe w) = Raise e ->
  login ue pe w = (Raise e, w).
Proof.
  intros Hm Hv. rewrite (login_present ue pe w Hm). unfold bind.
  pose proof (verify_user_world (py_strip ue) pe w) as Hw.
  destruct (verify_user (py_strip ue) pe w) as [[b|e'] w1];
    cbn [fst snd] in *; [discriminate|].
  congruence.
Qed.

Lemma login_raises_witness :
  login " admin" "admin123" (locked_world [])
  = (Raise (OperationalError "database is locked"), locked_world []).
Proof.
  apply login_raises.
  - unfold fields_missing. vm_compute. intuition discriminate.
  - reflexivity.
Defined.

(** X13. The demonstration login end to end: after the start-up of
    [main] on a database without fault and without an "admin" row,
    typing "admin", with any white space around it, and "admin123"
    closes the login window and passes "admin" on. *)
Theorem demo_login_after_first_run (ue : string) (w : world) :
  faultless w ->
  (forall t, disk w = Some t -> has_user t "admin" = false) ->
  py_strip ue = "admin" ->
  login ue "admin123" (snd (main_init w))
  = (Return [RootDestroy; OnSuccess "admin"], snd (main_init w)).
Proof.
  intros Hf Hno Hu.
  set (t0 := match disk w with Some t => t | None => [] end).
  assert (Ht0 : has_user t0 "admin" = false)
    by (subst t0; destruct (disk w) as [t|]; [now apply Hno | reflexivity]).
  rewrite (main_init_run w t0 Hf eq_refl), Ht0. cbn [snd].
  set (w1 := set_disk _ _).
  assert (Hr : readable w1)
    by (destruct Hf as (Hc & He & _); split; assumption).
  assert (Hs : stores w1 "admin" (Text (credential_of "admin123" w))).
  { eexists. split; [reflexivity|].
    rewrite select_password_snoc_other, (has_user_select t0 "admin" Ht0).
    reflexivity. }
  assert (Hcred : credential_of "admin123" w
                  = fresh_salt w ++ ":"
                    ++ sha256_hexdigest (encode ("admin123" ++ fresh_salt w)))
    by (unfold credential_of; now rewrite hash_password_fresh).
  rewrite Hcred in Hs.
  rewrite login_present.
  - unfold bind.
    rewrite Hu, (verify_user_stores _ _ _ _ Hr Hs
                   (decodable_credential "admin123" w)).
    now rewrite (comparison_same_password _ _ (fresh_salt_no_colon w)).
  - unfold fields_missing. rewrite Hu. intuition discriminate.
Qed.

Lemma demo_login_after_first_run_witness :
  login "  admin	" "admin123" (snd (main_init fresh_world))
  = (Return [RootDestroy; OnSuccess "admin"], snd (main_init fresh_world)).
Proof.
  apply demo_login_after_first_run.
  - repeat split.
  - discriminate.
  - reflexivity.
Defined.

(** ** Addresses *)

(** X14. The image addresses: there is none exactly when the path is
    missing or empty; otherwise the address is the image host, the size
    and the path, and for one size two different paths never share an
    address.  The poster and the backdrop differ in their default size
    only. *)
Theorem image_urls (path : option string) (size : option string) :
  (get_poster_url path size = None <-> path = None \/ path = Some "")
  /\ (forall p q : string,
        p <> "" ->
        get_poster_url (Some p) size = get_poster_url (Some q) size ->
        p = q)
  /\ (forall url : string,
        get_poster_url path size = Some url ->
        exists p s, path = Some p /\ url = IMAGE_BASE_URL ++ s ++ p
                    /\ s = match size with Some s => s | None => "w500" end)
  /\ (forall s : string,
        get_backdrop_url path (Some s) = get_poster_url path (Some s))
  /\ get_backdrop_url path None = get_poster_url path (Some "w1280").
Proof.
  unfold get_poster_url, get_backdrop_url. repeat split.
  - destruct path as [[|a p]|]; [now right | discriminate | now left].
  - intros [H|H]; now subst path.
  - intros p q. cbv zeta. set (s := match size with Some s => s | None => _ end).
    destruct p as [|a p], q as [|b q]; cbn [str_is_empty]; intros Hp H.
    + reflexivity.
    + contradiction.
    + discriminate H.
    + assert (E : IMAGE_BASE_URL ++ s ++ String a p
                  = IMAGE_BASE_URL ++ s ++ String b q) by congruence.
      exact (append_cancel_l _ _ _ (append_cancel_l _ _ _ E)).
  - intros url H. destruct path as [[|a p]|]; try discriminate.
    injection H as <-. now eexists _, _.
Qed.

(** ** The grid *)

From Stdlib Require Import PeanoNat.

Lemma next_position_index (n : nat) :
  next_position (n / 4, n mod 4) = (S n / 4, S n mod 4).
Proof.
  unfold next_position, max_cols.
  pose proof (Nat.div_mod_eq n 4) as Hn.
  pose proof (Nat.mod_upper_bound n 4 ltac:(discriminate)) as Hr.
  pose proof (Nat.div_mod_eq (S n) 4) as Hn'.
  pose proof (Nat.mod_upper_bound (S n) 4 ltac:(discriminate)) as Hr'.
  generalize dependent (S n / 4). generalize dependent (S n mod 4).
  generalize dependent (n / 4). generalize dependent (n mod 4).
  intros r Hr q Hn r' Hr' q' Hn'.
  destruct (Nat.leb_spec 4 (r + 1)); f_equal; lia.
Qed.

Lemma placed_from_nth {A : Type} (items : list A) (n k : nat) (item : A) :
  nth_error items k = Some item ->
  nth_error (placed_from (n / 4, n mod 4) items) k
  = Some (item, ((n + k) / 4, (n + k) mod 4)).
Proof.
  revert n k. induction items as [|x items IH]; intros n [|k] H;
    try discriminate.
  - injection H as <-. cbn. now rewrite Nat.add_0_r.
  - cbn [placed_from nth_error]. rewrite next_position_index.
    rewrite (IH (S n) k H). now replace (S n + k) with (n + S k) by lia.
Qed.

Lemma placed_from_length {A : Type} (items : list A) (position : nat * nat) :
  List.length (placed_from position items) = List.length items.
Proof.
  revert position. induction items as [|x items IH]; intros position;
    [reflexivity|]. cbn. now rewrite IH.
Qed.

(** X15. The grid of [display_items] has four columns filled row by
    row: the item of index [k] is put at row [k / 4], column [k mod 4];
    every item is placed, and no two items get the same position. *)
Theorem grid_positions (A : Type) (items : list A) :
  List.length (placed items) = List.length items
  /\ (forall (k : nat) (item : A),
        nth_error items k = Some item ->
        nth_error (placed items) k = Some (item, (k / 4, k mod 4)))
  /\ (forall (j k : nat) (x y : A) (position : nat * nat),
        nth_error (placed items) j = Some (x, position) ->
        nth_error (placed items) k = Some (y, position) ->
        j = k)
  /\ (forall (k : nat) (x : A) (row col : nat),
        nth_error (placed items) k = Some (x, (row, col)) -> col < 4).
Proof.
  assert (Hnth : forall k item, nth_error items k = Some item ->
            nth_error (placed items) k = Some (item, (k / 4, k mod 4))).
  { intros k item H. exact (placed_from_nth items 0 k item H). }
  assert (Hinv : forall k x position,
            nth_error (placed items) k = Some (x, position) ->
            position = (k / 4, k mod 4)).
  { intros k x position H.
    assert (Hk : k < List.length items).
    { rewrite <- (placed_from_length items (0, 0)).
      apply nth_error_Some. unfold placed in H. congruence. }
    destruct (nth_error items k) as [item|] eqn:Hi;
      [|apply nth_error_None in Hi; lia].
    rewrite (Hnth k item Hi) in H. congruence. }
  split; [apply placed_from_length|]. split; [exact Hnth|]. split.
  - intros j k x y position Hj Hk.
    apply Hinv in Hj, Hk.
    assert (Hq : j / 4 = k / 4) by congruence.
    assert (Hr : j mod 4 = k mod 4) by congruence.
    rewrite (Nat.div_mod_eq j 4), (Nat.div_mod_eq k 4). congruence.
  - intros k x row col H. apply Hinv in H.
    assert (Hc : col = k mod 4) by congruence. rewrite Hc.
    apply Nat.mod_upper_bound. discriminate.
Qed.

Lemma firstn_length_le {A : Type} (n : nat) (l : list A) :
  n <= List.length l -> List.length (firstn n l) = n.
Proof. intros H. rewrite List.length_firstn. lia. Qed.

(** X16. The texts of a card fit it: the title shown has at most 20
    characters, being the title itself when that has at most 20 and
    else its first 17 characters and three dots, 20 in all; the year
    shown has one to four characters, "N/A" standing for a missing or
    empty date. *)
Theorem card_texts (title : text) (date : option text) :
  List.length (display_title title) <= 20
  /\ (List.length title <= 20 -> display_title title = title)
  /\ (20 < List.length title ->
      display_title title = (firstn 17 title ++ text_of "...")%list
      /\ List.length (display_title title) = 20)
  /\ 1 <= List.length (year_label date) <= 4
  /\ (forall d : text,
        date = Some d -> d <> [] -> year_label date = firstn 4 d)
  /\ (date = None \/ date = Some [] -> year_label date = text_of "N/A").
Proof.
  unfold display_title.
  destruct (Nat.leb_spec (List.length title) 20) as [Hl|Hl].
  - split; [exact Hl|]. split; [reflexivity|]. split; [lia|].
    destruct date as [[|c d]|]; cbn [year_label].
    + split; [cbn; lia|]. split; [now intros d [= <-] | reflexivity].
    + split; [|split].
      * rewrite List.length_firstn. cbn [List.length]. lia.
      * now intros d' [= <-].
      * intros [H|H]; discriminate.
    + split; [cbn; lia|]. split; [discriminate | reflexivity].
  - assert (H17 : List.length (firstn 17 title ++ text_of "...")%list = 20).
    { rewrite List.length_app, firstn_length_le by lia. reflexivity. }
    split; [lia|]. split; [lia|]. split; [now split|].
    destruct date as [[|c d]|]; cbn [year_label].
    + split; [cbn; lia|]. split; [now intros d [= <-] | reflexivity].
    + split; [|split].
      * rewrite List.length_firstn. cbn [List.length]. lia.
      * now intros d' [= <-].
      * intros [H|H]; discriminate.
    + split; [cbn; lia|]. split; [discriminate | reflexivity].
Qed.
